(** * notification.py: a shallow embedding and its verified properties

    The script notifies a list of Slack users about a newsletter.  Its logic
    is: option consolidation ([Options]), the originating user's profile
    ([OriginatingUser]), the paginated directory lookup ([FetchUserIds]),
    the message body ([Message.__init__]) and the dispatch loop
    ([Message.send]).

    Modelling choices.
    - Python [str] values are [string]s (byte strings; comparison is
      lexicographic on bytes, which is the code-point order of Python on
      UTF-8 text).
    - An exception is a value of [exn]; a call that may raise returns a
      [result].
    - Everything the script does to the outside (printing, sleeping, calls to
      the Slack client) is recorded, in order, as a list of [event]s.
    - The outside is an explicit [world]: the file system, the answers of the
      Slack client, and what Python itself decides: the iteration order of
      sets and [str.casefold]. *)

From Stdlib Require Import String Ascii Sorted.
From stdpp Require Import base list strings sets.

Local Open Scope string_scope.
Local Open Scope list_scope.

(** ** Exceptions and results *)

Inductive exn : Type :=
| IndexError                      (* [user[0]] on an empty string *)
| KeyError (key : string)         (* a missing key of a response dict *)
| RuntimeError                    (* raised by the script itself *)
| UsageError (msg : string)       (* [ArgumentParser.error]: message, exit 2 *)
| OSError (path : string)         (* [open] on a file that cannot be opened *)
| UnicodeDecodeError              (* reading a file that is not valid text *)
| ValueError.                     (* [str.format] on a malformed template *)

Inductive result (A : Type) : Type :=
| Ok (a : A)
| Raise (e : exn).
Arguments Ok {A} a.
Arguments Raise {A} e.

(** [ArgumentParser.error] was called. *)
Definition usage_error {A} (r : result A) : bool :=
  match r with Raise (UsageError _) => true | _ => false end.

(** ** Strings *)

(** Truth value of a string: [bool(s)]. *)
Definition str_truthy (s : string) : bool :=
  match s with EmptyString => false | String _ _ => true end.

(** Truth value of an optional argument ([None] or a string). *)
Definition opt_truthy (o : option string) : bool :=
  match o with None => false | Some s => str_truthy s end.

(** [needle in haystack] for two strings. *)
Fixpoint str_contains (needle haystack : string) : bool :=
  String.prefix needle haystack ||
  match haystack with
  | EmptyString => false
  | String _ rest => str_contains needle rest
  end.

(** The bytes of ASCII text. *)
Definition is_ascii_char (c : ascii) : bool := Nat.ltb (nat_of_ascii c) 128.

Fixpoint is_ascii (s : string) : bool :=
  match s with
  | EmptyString => true
  | String c rest => is_ascii_char c && is_ascii rest
  end.

(** Lower case on ASCII text: the letters [A-Z] are lowered, every other
    byte is kept. *)
Definition ascii_lower_char (c : ascii) : ascii :=
  let n := nat_of_ascii c in
  if Nat.leb 65 n && Nat.leb n 90 then ascii_of_nat (n + 32) else c.

Fixpoint ascii_lower (s : string) : string :=
  match s with
  | EmptyString => EmptyString
  | String c rest => String (ascii_lower_char c) (ascii_lower rest)
  end.

(** [str.casefold].  Full Unicode case folding is Python's own and is not
    spelled out: the model takes it as it comes, knowing of it only what it
    does to ASCII text, which it lowers. *)
Record Folding : Type := mkFolding {
  casefold : string -> string;
  casefold_ascii : forall s : string, is_ascii s = true -> casefold s = ascii_lower s
}.

(** The folding that lowers the letters [A-Z] and does nothing else. *)
Definition ascii_folding : Folding :=
  {| casefold := ascii_lower; casefold_ascii := fun _ _ => eq_refl |}.

(** ** [sorted(iterable, key=...)]

    Python's sort is stable and compares keys with [<].  The model is the
    stable insertion sort; the key type is [string]. *)

Section Sorted.
Context {A : Type} (key : A -> string).

Fixpoint insert_by (x : A) (l : list A) : list A :=
  match l with
  | [] => [x]
  | y :: l' =>
      if String.ltb (key y) (key x) then y :: insert_by x l' else x :: l
  end.

Fixpoint sorted (l : list A) : list A :=
  match l with
  | [] => []
  | x :: l' => insert_by x (sorted l')
  end.

(** The order of the keys: [Sorted key_le l] says they never decrease
    along [l]. *)
Definition key_le (x y : A) : Prop := String.leb (key x) (key y) = true.
End Sorted.

(** ** Python sets

    [normalized] is a [set] of strings.  The order in which a set is
    iterated is decided by its hash table (string hashes are salted per
    process), not by the script.  The model keeps the sequence of [add]
    calls and leaves the enumeration to an oracle [iter], about which only
    [set_iteration_order] is known. *)

Definition pyset : Type := list string.

Definition set_add (x : string) (s : pyset) : pyset := s ++ [x].

Definition set_iteration_order (iter : pyset -> list string) : Prop :=
  forall s : pyset, NoDup (iter s) /\ forall x : string, x ∈ iter s <-> x ∈ s.

(** ** [Options._normalize_usernames] *)

(** One pass of the loop body: [user[0] == '@'] raises on the empty string. *)
Definition strip_sigil (user : string) : result string :=
  match user with
  | EmptyString => Raise IndexError
  | String c rest => if Ascii.eqb c "@" then Ok rest else Ok user
  end.

Fixpoint normalize_loop (usernames : list string) (normalized : pyset) : result pyset :=
  match usernames with
  | [] => Ok normalized
  | user :: rest =>
      match strip_sigil user with
      | Raise e => Raise e
      | Ok name => normalize_loop rest (set_add name normalized)
      end
  end.

Definition _normalize_usernames (cf : Folding) (iter : pyset -> list string)
    (usernames : list string) : result (list string) :=
  match normalize_loop usernames [] with
  | Raise e => Raise e
  | Ok normalized => Ok (sorted (casefold cf) (iter normalized))
  end.

(** ** The world outside the script *)

(** The JSON dicts the Slack client returns.  A field that may be absent is
    an [option]; [None] is "the key is not in the dict". *)

Record Member : Type := mkMember {
  member_id : option string;           (* member['id'] *)
  member_name : option string;         (* member['name'] *)
  member_real_name : option string     (* member['real_name'] *)
}.

Record Profile : Type := mkProfile {
  display_name_normalized : option string;
  first_name : option string
}.

Record Metadata : Type := mkMetadata {
  next_cursor : option string
}.

Record Response : Type := mkResponse {
  ok : bool;
  error : option string;
  profile : option Profile;
  members : option (list Member);
  response_metadata : option Metadata
}.

Inductive call : Type :=
| users_profile_get
| users_list (limit : nat) (cursor : string)
| chat_postMessage (channel text as_user : string).

Inductive event : Type :=
| ApiCall (c : call)                (* slack.api_call(...) *)
| Print (line : string)             (* print(str) *)
| PrintResponse (r : Response)      (* print(response) *)
| Sleep (seconds : nat).            (* time.sleep(seconds) *)

(** What the script is run against.  [fs path] is what opening the file
    [path] and reading it as text gives: the text as Python's text layer
    hands it over, or the exception raised ([OSError] when the file cannot
    be opened, [UnicodeDecodeError] when it is not valid text).
    [str_casefold] is Python's [str.casefold].  [users_list_answers] are the
    answers to the successive [users.list] calls: the script may loop for
    ever, so the model runs it for as long as answers are listed.
    [post_answer i] answers the [i]-th [chat.postMessage] call. *)
Record world : Type := mkWorld {
  fs : string -> result string;
  str_casefold : Folding;
  set_iter : pyset -> list string;
  profile_answer : Response;
  users_list_answers : list Response;
  post_answer : nat -> Response
}.

(** ** Programs: a trace of events and how the run ended *)

Inductive outcome (A : Type) : Type :=
| Returned (a : A)
| Raised (e : exn)
| Running.          (* no answer left: the script is still waiting *)
Arguments Returned {A} a.
Arguments Raised {A} e.
Arguments Running {A}.

Definition prog (A : Type) : Type := list event * outcome A.

Definition ret {A} (a : A) : prog A := ([], Returned a).
Definition raise {A} (e : exn) : prog A := ([], Raised e).
Definition emit (e : event) : prog unit := ([e], Returned tt).

Definition bind {A B} (m : prog A) (k : A -> prog B) : prog B :=
  match m with
  | (t, Returned a) => let '(t', o) := k a in (t ++ t', o)
  | (t, Raised e) => (t, Raised e)
  | (t, Running) => (t, Running)
  end.

Definition lift {A} (r : result A) : prog A :=
  match r with Ok a => ret a | Raise e => raise e end.

Definition trace {A} (p : prog A) : list event := fst p.
Definition final {A} (p : prog A) : outcome A := snd p.

Notation "'let*' x := m 'in' k" := (bind m (fun x => k))
  (at level 10, x name, m at level 100, k at level 200).
Notation "'let*' ' p := m 'in' k" := (bind m (fun p => k))
  (at level 10, p pattern, m at level 100, k at level 200).
Notation "m ;;; k" := (bind m (fun _ => k))
  (at level 90, right associativity).

Arguments bind : simpl never.
Arguments emit : simpl never.
Arguments lift : simpl never.

(** ** [Options] *)

(** The namespace [parse_args] returns. *)
Record Namespace : Type := mkNamespace {
  arg_users : option (list string);   (* --users / --user, nargs='+' *)
  arg_user_list : option string;      (* --user_list FILE *)
  arg_url : option string;            (* --url *)
  arg_deadline : option string;       (* --deadline *)
  arg_message : option string;        (* --message FILE *)
  arg_dry : bool                      (* --dry *)
}.

Definition newline : ascii := ascii_of_nat 10.

(** [for line in f]: the lines of a text, each with its terminator. *)
Fixpoint file_iter (text : string) : list string :=
  match text with
  | EmptyString => []
  | String c rest =>
      if Ascii.eqb c newline then String c EmptyString :: file_iter rest
      else match file_iter rest with
           | [] => [String c EmptyString]
           | l :: ls => String c l :: ls
           end
  end.

(** [line.rstrip('\n')] *)
Fixpoint rstrip_newline (s : string) : string :=
  match s with
  | EmptyString => EmptyString
  | String c rest =>
      match rstrip_newline rest with
      | EmptyString => if Ascii.eqb c newline then EmptyString else String c EmptyString
      | r => String c r
      end
  end.

Definition _add_command_line_users (args : Namespace) (usernames : list string) : list string :=
  match arg_users args with
  | Some (u :: us) => usernames ++ u :: us
  | _ => usernames
  end.

Definition _add_users_from_file (fs : string -> result string) (args : Namespace)
    (usernames : list string) : result (list string) :=
  match arg_user_list args with
  | Some path =>
      if str_truthy path then
        match fs path with
        | Raise e => Raise e
        | Ok text => Ok (usernames ++ map rstrip_newline (file_iter text))
        end
      else Ok usernames
  | None => Ok usernames
  end.

Definition _compile_lists (fs : string -> result string) (args : Namespace)
    (usernames : list string) : result (list string) :=
  _add_users_from_file fs args (_add_command_line_users args usernames).

(** The test of the second [if] of [store_args]. *)
Definition message_source_given (args : Namespace) : bool :=
  (opt_truthy (arg_url args) && opt_truthy (arg_deadline args)) || opt_truthy (arg_message args).

(** [store_args]; [args] is what [self.parse_args()] returned.  The value
    is the final [self.usernames]. *)
Definition store_args (fs : string -> result string) (cf : Folding)
    (iter : pyset -> list string) (args : Namespace) : result (list string) :=
  match _compile_lists fs args [] with
  | Raise e => Raise e
  | Ok usernames =>
      match usernames with
      | [] => Raise (UsageError "At least one user or file of users is required.")
      | _ :: _ =>
          if negb (message_source_given args)
          then Raise (UsageError "Either URL and deadline or message file is required.")
          else _normalize_usernames cf iter usernames
      end
  end.

(** ** [OriginatingUser] *)

Record OriginatingUser : Type := mkOriginatingUser {
  username : string;
  firstname : string
}.

Definition OriginatingUser_init (response : Response) : prog OriginatingUser :=
  emit (ApiCall users_profile_get) ;;;
  if negb (ok response) then
    emit (PrintResponse response) ;;; raise RuntimeError
  else
    match profile response with
    | None => raise (KeyError "profile")
    | Some p =>
        match display_name_normalized p with
        | None => raise (KeyError "display_name_normalized")
        | Some display =>
            let username := "@" +:+ display in
            match first_name p with
            | None => raise (KeyError "first_name")
            | Some first =>
                ret {| username := username;
                       firstname := if str_truthy first then first else username |}
            end
        end
    end.

(** ** [User] *)

Record User : Type := mkUser {
  user_id : string;
  user_name : string
}.

(** ** [Message] *)

Definition default_message : string :=
":robot_face:I am a bot, posting on behalf of {0}. Beep-boop:robot_face:

We’re presently preparing to publish a newsletter for this slack, and
some of the content you authored or participated or were named in has
been selected for potential inclusion.  While all the content is
public in channel history, we’re attempting to make the collation
process opt-in.

The current draft is at {1}

We would like you to agree to the inclusion of your content.  Ideally,
you’d provide blanket inclusion approval, but if you’d like to have
finer control, or even blanket exclusion, that’s perfectly acceptable
as well.

*If you don’t specifically approve your mentions/content by {2}, we will exclude it*.

{0} will see your response to this message, which can be as
short as “Ok” (just this newsletter), “Ok - always”, “No”, and
“No - always” (or :thumbsup:/:thumbsdown:).  (They are also available
to reword how your contribution was presented if you feel it doesn't match
your intended message.)

If you have questions, please either reply here, or in #rands-newsletter if
they’re more general.

Thanks for being an active part of the community, and we look forward
to hearing from you soon.

:robot_face:Beep-boop. Bot out:robot_face:".

(** [str(x)] of an optional argument: [None] prints as its name. *)
Definition py_str (o : option string) : string :=
  match o with None => "None" | Some s => s end.

Definition is_digit (c : ascii) : bool :=
  let n := nat_of_ascii c in Nat.leb 48 n && Nat.leb n 57.

Definition digit_value (c : ascii) : nat := nat_of_ascii c - 48.

(** [str.format] with positional arguments.  The scanner knows the
    replacement field [{N}] (a decimal index) and the escapes [{{] and [}}],
    which is all [default_message] uses; an index past the arguments is
    Python's [IndexError].  Any other brace form is outside the model and is
    reported as [ValueError]. *)
Inductive format_state : Type :=
| Text                 (* outside a field *)
| Opened               (* after a '{' *)
| Index (n : nat)      (* inside '{N', the digits read so far *)
| Closed.              (* after a '}' outside a field *)

Fixpoint format_from (st : format_state) (template : string) (args : list string)
    : result string :=
  match template with
  | EmptyString => match st with Text => Ok EmptyString | _ => Raise ValueError end
  | String c rest =>
      match st with
      | Text =>
          if Ascii.eqb c "{" then format_from Opened rest args
          else if Ascii.eqb c "}" then format_from Closed rest args
          else match format_from Text rest args with
               | Ok s => Ok (String c s)
               | Raise e => Raise e
               end
      | Opened =>
          if Ascii.eqb c "{" then
            match format_from Text rest args with
            | Ok s => Ok (String c s)
            | Raise e => Raise e
            end
          else if is_digit c then format_from (Index (digit_value c)) rest args
          else Raise ValueError
      | Index n =>
          if Ascii.eqb c "}" then
            match args !! n with
            | None => Raise IndexError
            | Some a =>
                match format_from Text rest args with
                | Ok s => Ok (a +:+ s)
                | Raise e => Raise e
                end
            end
          else if is_digit c then format_from (Index (10 * n + digit_value c)) rest args
          else Raise ValueError
      | Closed =>
          if Ascii.eqb c "}" then
            match format_from Text rest args with
            | Ok s => Ok (String c s)
            | Raise e => Raise e
            end
          else Raise ValueError
      end
  end.

Definition format (template : string) (args : list string) : result string :=
  format_from Text template args.

(** [Message.__init__]: the value of [self._message]. *)
Definition Message_init (fs : string -> result string)
    (message_file url deadline : option string) (from_user : OriginatingUser)
    : result string :=
  match format default_message [firstname from_user; py_str url; py_str deadline] with
  | Raise e => Raise e
  | Ok _message =>
      match message_file with
      | Some path =>
          if str_truthy path then
            match fs path with
            | Raise e => Raise e
            | Ok contents => Ok contents
            end
          else Ok _message
      | None => Ok _message
      end
  end.

(** ["-" * 80] *)
Fixpoint str_repeat (s : string) (n : nat) : string :=
  match n with
  | O => EmptyString
  | S n' => s +:+ str_repeat s n'
  end.

(** The body of the [for user in users] loop of [send]; [i] counts the
    iterations, so in live mode it is the number of posts made so far. *)
Fixpoint send_loop (post : nat -> Response) (_message : string)
    (from_user : OriginatingUser) (users : list User) (dry : bool) (i : nat)
    : prog unit :=
  match users with
  | [] => ret tt
  | user :: rest =>
      (if negb dry then
         emit (Print ("Notifying @" +:+ user_name user)) ;;;
         emit (ApiCall (chat_postMessage (user_id user) _message (username from_user))) ;;;
         let response := post i in
         if negb (ok response) then
           emit (PrintResponse response) ;;; raise RuntimeError
         else ret tt
       else
         emit (Print ("Would have notified @" +:+ user_name user))) ;;;
      send_loop post _message from_user rest dry (S i)
  end.

(** [Message.send] *)
Definition send (post : nat -> Response) (_message : string)
    (from_user : OriginatingUser) (users : list User) (dry : bool) : prog unit :=
  (if dry then
     emit (Print (str_repeat "-" 80)) ;;;
     emit (Print _message) ;;;
     emit (Print (str_repeat "-" 80)) ;;;
     emit (Print "")
   else ret tt) ;;;
  send_loop post _message from_user users dry 0.

(** ** [FetchUserIds]

    The function works on the list it is given, in place, and returns that
    same list as the names left over; the model passes the list along. *)

(** [users.remove(name)]: the first occurrence goes. *)
Fixpoint list_remove_first (name : string) (users : list string) : list string :=
  match users with
  | [] => []
  | u :: rest => if String.eqb name u then rest else u :: list_remove_first name rest
  end.

(** [name in users] *)
Definition list_contains (name : string) (users : list string) : bool :=
  existsb (String.eqb name) users.

(** The body of [for member in response['members']]. *)
Definition match_member (member : Member) (user_ids : list User) (users : list string)
    : result (list User * list string) :=
  match member_id member with
  | None => Raise (KeyError "id")
  | Some id =>
      let name := default "" (member_name member) in
      let real_name := default "" (member_real_name member) in
      if list_contains name users then
        Ok (user_ids ++ [mkUser id name], list_remove_first name users)
      else if list_contains real_name users then
        Ok (user_ids ++ [mkUser id real_name], list_remove_first real_name users)
      else Ok (user_ids, users)
  end.

Fixpoint match_members (page : list Member) (user_ids : list User) (users : list string)
    : result (list User * list string) :=
  match page with
  | [] => Ok (user_ids, users)
  | member :: rest =>
      match match_member member user_ids users with
      | Raise e => Raise e
      | Ok (user_ids', users') => match_members rest user_ids' users'
      end
  end.

(** [if 'members' in response: for member in response['members']: ...] *)
Definition process_page (response : Response) (user_ids : list User) (users : list string)
    : result (list User * list string) :=
  match members response with
  | None => Ok (user_ids, users)
  | Some page => match_members page user_ids users
  end.

(** ['error' in response and 'ratelimited' in response['error']] *)
Definition ratelimited (response : Response) : bool :=
  match error response with
  | None => false
  | Some e => str_contains "ratelimited" e
  end.

(** The tests after the page loop: the value of [next] for another round, or
    [None] when one of the four [return]s is taken. *)
Definition continuation (response : Response) (users : list string) : option string :=
  match users with
  | [] => None
  | _ :: _ =>
      match response_metadata response with
      | None => None
      | Some metadata =>
          match next_cursor metadata with
          | None => None
          | Some next => if str_truthy next then Some next else None
          end
      end
  end.

(** The [while True] loop, run against the listed answers. *)
Fixpoint FetchUserIds_loop (answers : list Response) (user_ids : list User)
    (users : list string) (next : string) : prog (list User * list string) :=
  match answers with
  | [] => ([ApiCall (users_list 250 next)], Running)
  | response :: answers' =>
      emit (ApiCall (users_list 250 next)) ;;;
      if negb (ok response) then
        if ratelimited response then
          emit (Print "pausing...") ;;;
          emit (Sleep 3) ;;;
          FetchUserIds_loop answers' user_ids users next
        else
          emit (PrintResponse response) ;;; raise RuntimeError
      else
        let* '(user_ids', users') := lift (process_page response user_ids users) in
        match continuation response users' with
        | None => ret (user_ids', users')
        | Some next' => FetchUserIds_loop answers' user_ids' users' next'
        end
  end.

Definition FetchUserIds (answers : list Response) (users : list string)
    : prog (list User * list string) :=
  FetchUserIds_loop answers [] users "".

(** ** The script *)

Fixpoint report_loop (unidentified_users : list string) : prog unit :=
  match unidentified_users with
  | [] => ret tt
  | user :: rest => emit (Print ("@" +:+ user)) ;;; report_loop rest
  end.

Definition main (w : world) (args : Namespace) : prog unit :=
  let* usernames := lift (store_args (fs w) (str_casefold w) (set_iter w) args) in
  let* from_user := OriginatingUser_init (profile_answer w) in
  let* '(user_ids, unidentified_users) := FetchUserIds (users_list_answers w) usernames in
  let* message := lift (Message_init (fs w) (arg_message args) (arg_url args)
                                     (arg_deadline args) from_user) in
  send (post_answer w) message from_user user_ids (arg_dry args) ;;;
  match unidentified_users with
  | [] => ret tt
  | _ :: _ =>
      emit (Print "") ;;;
      emit (Print "*** Unable to identify the following users ***") ;;;
      report_loop unidentified_users
  end.

(** ** Auxiliary definitions for the statements *)

Definition bob_names : list string := ["@Bob"; "bob"; "Alice"].

(** The name stored for a non-empty input name. *)
Definition stored_name (user : string) : string :=
  match user with
  | String c rest => if Ascii.eqb c "@" then rest else user
  | EmptyString => EmptyString
  end.

Definition has_sigil (user : string) : bool :=
  match user with
  | String c _ => Ascii.eqb c "@"
  | EmptyString => false
  end.

(** What is stored for the names [usernames]: an input ["@" ++ rest] is
    stored as [rest], any other input as it is, and nothing else is stored. *)
Definition stores_stripped (usernames stored : list string) : Prop :=
  (forall rest, String "@" rest ∈ usernames -> rest ∈ stored) /\
  (forall u, u ∈ usernames -> has_sigil u = false -> u ∈ stored) /\
  (forall n, n ∈ stored ->
     String "@" n ∈ usernames \/ (n ∈ usernames /\ has_sigil n = false)).

(** Normalising [stored] once more changes no name: each one is stored as
    itself, and the new list has the same names, in key order again (it is
    [stored] itself when the set is iterated in that order). *)
Definition renormalizes_to_itself (cf : Folding) (stored : list string) : Prop :=
  Forall (fun n => strip_sigil n = Ok n) stored /\
  forall iter', set_iteration_order iter' ->
    exists stored',
      _normalize_usernames cf iter' stored = Ok stored' /\
      stored' ≡ₚ stored /\
      Sorted (key_le (casefold cf)) stored' /\
      (iter' stored = stored -> stored' = stored).

(** No file can be opened. *)
Definition no_files (path : string) : result string := Raise (OSError path).

Definition blank_line_file : string := "alice

bob
".

Definition blank_line_args : Namespace :=
  {| arg_users := None; arg_user_list := Some "users.txt";
     arg_url := Some "http://x"; arg_deadline := Some "Monday";
     arg_message := None; arg_dry := false |}.

Definition both_sources_args : Namespace :=
  {| arg_users := Some ["alice"]; arg_user_list := None;
     arg_url := Some "http://x"; arg_deadline := Some "Monday";
     arg_message := Some "body.txt"; arg_dry := false |}.

(** The first test of the loop on a failed call. *)
Definition rate_limited_failure (response : Response) : bool :=
  negb (ok response) && ratelimited response.

(** The stop test spelled out. *)
Definition stops (response : Response) (users : list string) : Prop :=
  users = [] \/
  response_metadata response = None \/
  (exists metadata, response_metadata response = Some metadata /\
     (next_cursor metadata = None \/ next_cursor metadata = Some "")).

(** One directory entry gives at most one recipient, and its short name is
    tried before its real name. *)
Definition first_match_wins : Prop :=
  forall (member : Member) (user_ids : list User) (users : list string),
    match match_member member user_ids users with
    | Raise e => member_id member = None /\ e = KeyError "id"
    | Ok (user_ids', users') =>
        let name := default "" (member_name member) in
        let real_name := default "" (member_real_name member) in
        ((name ∉ users) /\ (real_name ∉ users) /\ user_ids' = user_ids /\ users' = users) \/
        (exists id matched,
           member_id member = Some id /\
           user_ids' = user_ids ++ [mkUser id matched] /\
           users' = list_remove_first matched users /\
           matched ∈ users /\
           (matched = name \/ ((name ∉ users) /\ matched = real_name)))
    end.

Definition failed_response (e : string) : Response :=
  {| ok := false; error := Some e; profile := None; members := None;
     response_metadata := None |}.

Definition page_response (page : list Member) (cursor : option string) : Response :=
  {| ok := true; error := None; profile := None; members := Some page;
     response_metadata := Some {| next_cursor := cursor |} |}.

Definition alice_bob_args : Namespace :=
  {| arg_users := Some ["Alice"; "@bob"]; arg_user_list := None;
     arg_url := Some "http://x"; arg_deadline := Some "Monday";
     arg_message := None; arg_dry := false |}.

(** Two pages; "Alice" comes back on the second one as a real name. *)
Definition two_pages : list Response :=
  [ page_response [mkMember (Some "U1") (Some "Alice") (Some "Alice A.")] (Some "c1");
    page_response [mkMember (Some "U2") (Some "al") (Some "Alice");
                   mkMember (Some "U3") (Some "bob") None] (Some "") ].

(** The literal text of [default_message] between its replacement fields. *)
Definition template_part0 : string :=
":robot_face:I am a bot, posting on behalf of ".

Definition template_part1 : string :=
". Beep-boop:robot_face:

We’re presently preparing to publish a newsletter for this slack, and
some of the content you authored or participated or were named in has
been selected for potential inclusion.  While all the content is
public in channel history, we’re attempting to make the collation
process opt-in.

The current draft is at ".

Definition template_part2 : string :=
"

We would like you to agree to the inclusion of your content.  Ideally,
you’d provide blanket inclusion approval, but if you’d like to have
finer control, or even blanket exclusion, that’s perfectly acceptable
as well.

*If you don’t specifically approve your mentions/content by ".

Definition template_part3 : string :=
", we will exclude it*.

".

Definition template_part4 : string :=
" will see your response to this message, which can be as
short as “Ok” (just this newsletter), “Ok - always”, “No”, and
“No - always” (or :thumbsup:/:thumbsdown:).  (They are also available
to reword how your contribution was presented if you feel it doesn't match
your intended message.)

If you have questions, please either reply here, or in #rands-newsletter if
they’re more general.

Thanks for being an active part of the community, and we look forward
to hearing from you soon.

:robot_face:Beep-boop. Bot out:robot_face:".

(** [default_message] with its fields filled in. *)
Definition rendered (first url deadline : string) : string :=
  template_part0 +:+ first +:+ template_part1 +:+ url +:+ template_part2 +:+
  deadline +:+ template_part3 +:+ first +:+ template_part4.

(** Plain text goes through the scanner unchanged. *)
Fixpoint brace_free (s : string) : bool :=
  match s with
  | EmptyString => true
  | String c rest => negb (Ascii.eqb c "{") && negb (Ascii.eqb c "}") && brace_free rest
  end.

(** The events of one live iteration of the loop of [send]. *)
Definition notify_events (_message : string) (from_user : OriginatingUser) (user : User)
    : list event :=
  [Print ("Notifying @" +:+ user_name user);
   ApiCall (chat_postMessage (user_id user) _message (username from_user))].

Definition live_events (_message : string) (from_user : OriginatingUser)
    (users : list User) : list event :=
  flat_map (notify_events _message from_user) users.

Definition dry_events (_message : string) (users : list User) : list event :=
  [Print (str_repeat "-" 80); Print _message; Print (str_repeat "-" 80); Print ""] ++
  map (fun user => Print ("Would have notified @" +:+ user_name user)) users.

(** The calls to the Slack client in a trace, in order. *)
Fixpoint api_calls (t : list event) : list call :=
  match t with
  | [] => []
  | ApiCall c :: t' => c :: api_calls t'
  | _ :: t' => api_calls t'
  end.

Definition is_post (e : event) : bool :=
  match e with ApiCall (chat_postMessage _ _ _) => true | _ => false end.

(** A post carries the body [_message] and is made as [from_user]. *)
Definition post_carries (_message : string) (from_user : OriginatingUser) (e : event) : Prop :=
  match e with
  | ApiCall (chat_postMessage _ text as_user) =>
      text = _message /\ as_user = username from_user
  | _ => True
  end.

(** ** Auxiliary definitions for the further properties *)

(** The text of a file with the lines [names], each ended by a newline,
    and then [last], which is not. *)
Fixpoint text_of (names : list string) (last : string) : string :=
  match names with
  | [] => last
  | n :: rest => n +:+ String newline (text_of rest last)
  end.

(** No newline in the string. *)
Fixpoint one_line (s : string) : bool :=
  match s with
  | EmptyString => true
  | String c rest => negb (Ascii.eqb c newline) && one_line rest
  end.

(** A well-formed page: the call succeeded and every entry has an id. *)
Definition good_page (response : Response) : Prop :=
  ok response = true /\
  forall page, members response = Some page ->
               Forall (fun member => member_id member <> None) page.

(** The calls of a trace are all [users.list] calls with limit 250. *)
Definition list_call (c : call) : Prop :=
  match c with users_list 250 _ => True | _ => False end.

(** What the script prints about the names left over. *)
Definition report_events (unidentified_users : list string) : list event :=
  match unidentified_users with
  | [] => []
  | _ :: _ =>
      Print "" :: Print "*** Unable to identify the following users ***" ::
      map (fun user => Print ("@" +:+ user)) unidentified_users
  end.

(** The posts a live [send] is out to make. *)
Definition posts_for (_message : string) (from_user : OriginatingUser) (users : list User)
    : list call :=
  map (fun user => chat_postMessage (user_id user) _message (username from_user)) users.

Definition carol_profile : Response :=
  {| ok := true; error := None;
     profile := Some {| display_name_normalized := Some "carol";
                        first_name := Some "Carol" |};
     members := None; response_metadata := None |}.

(** A directory of one page, which knows "Alice" only; every post succeeds;
    no file can be read. *)
Definition one_page_world : world :=
  {| fs := no_files;
     str_casefold := ascii_folding;
     set_iter := remove_dups;
     profile_answer := carol_profile;
     users_list_answers := [page_response [mkMember (Some "U1") (Some "Alice") None] None];
     post_answer := fun _ => carol_profile |}.

Definition carol : OriginatingUser := {| username := "@carol"; firstname := "Carol" |}.

Definition message_file_args : Namespace :=
  {| arg_users := Some ["Alice"]; arg_user_list := None;
     arg_url := None; arg_deadline := None;
     arg_message := Some "body.txt"; arg_dry := false |}.

(** * Verified properties *)

(** ** The stable sort *)

Section SortedFacts.
Context {A : Type} (key : A -> string).

Lemma insert_by_perm (x : A) (l : list A) : insert_by key x l ≡ₚ x :: l.
Proof.
  induction l as [|y l IH]; simpl; [done|].
  destruct (String.ltb (key y) (key x)); [|done].
  rewrite IH. apply Permutation_swap.
Qed.

Lemma sorted_perm (l : list A) : sorted key l ≡ₚ l.
Proof.
  induction l as [|x l IH]; simpl; [done|].
  by rewrite insert_by_perm, IH.
Qed.

Lemma ltb_true_le (a b : string) : String.ltb a b = true -> String.leb a b = true.
Proof. unfold String.ltb, String.leb. by destruct (String.compare a b). Qed.

Lemma ltb_false_ge (a b : string) : String.ltb a b = false -> String.leb b a = true.
Proof.
  unfold String.ltb, String.leb. rewrite (String.compare_antisym b a).
  by destruct (String.compare a b).
Qed.

Lemma insert_by_HdRel (y x : A) (l : list A) :
  key_le key y x -> HdRel (key_le key) y l -> HdRel (key_le key) y (insert_by key x l).
Proof.
  intros Hyx Hl. destruct l as [|z l]; simpl; [by constructor|].
  destruct (String.ltb (key z) (key x)); constructor; [|done].
  by inversion Hl.
Qed.

Lemma insert_by_Sorted (x : A) (l : list A) :
  Sorted (key_le key) l -> Sorted (key_le key) (insert_by key x l).
Proof.
  induction 1 as [|y l Hs IH Hd]; simpl; [by repeat constructor|].
  destruct (String.ltb (key y) (key x)) eqn:E.
  - constructor; [done|]. apply insert_by_HdRel; [|done].
    by apply ltb_true_le.
  - constructor; [by constructor|]. constructor. by apply ltb_false_ge.
Qed.

Lemma sorted_Sorted (l : list A) : Sorted (key_le key) (sorted key l).
Proof. induction l; simpl; [constructor|by apply insert_by_Sorted]. Qed.

(** A list already in key order is left as it is. *)
Lemma insert_by_head (x : A) (l : list A) :
  HdRel (key_le key) x l -> insert_by key x l = x :: l.
Proof.
  destruct 1 as [|y l Hxy]; simpl; [done|].
  unfold key_le, String.leb in Hxy. unfold String.ltb.
  rewrite (String.compare_antisym (key y) (key x)).
  by destruct (String.compare (key x) (key y)).
Qed.

Lemma sorted_id (l : list A) : Sorted (key_le key) l -> sorted key l = l.
Proof.
  induction 1 as [|x l Hs IH Hd]; simpl; [done|].
  rewrite IH. by apply insert_by_head.
Qed.
End SortedFacts.

(** The sort looks at the keys of the elements it is given, and at nothing
    else of the key function. *)
Lemma insert_by_ext {A : Type} (key key' : A -> string) (x : A) (l : list A) :
  key x = key' x -> Forall (fun y => key y = key' y) l ->
  insert_by key x l = insert_by key' x l.
Proof.
  intros Hx Hl. induction Hl as [|y l Hy _ IH]; simpl; [done|].
  by rewrite Hx, Hy, IH.
Qed.

Lemma sorted_ext {A : Type} (key key' : A -> string) (l : list A) :
  Forall (fun y => key y = key' y) l -> sorted key l = sorted key' l.
Proof.
  induction 1 as [|x l Hx Hl IH]; simpl; [done|].
  rewrite IH. apply insert_by_ext; [done|]. by rewrite sorted_perm.
Qed.

Lemma Sorted_key_ext {A : Type} (key key' : A -> string) (l : list A) :
  Forall (fun y => key y = key' y) l ->
  Sorted (key_le key) l -> Sorted (key_le key') l.
Proof.
  intros Hl Hs. induction Hs as [|x l Hs IH Hd]; [constructor|].
  apply Forall_cons in Hl as [Hx Hl]. constructor; [by apply IH|].
  destruct Hd as [|y l Hxy]; constructor.
  apply Forall_cons in Hl as [Hy _]. unfold key_le in *. congruence.
Qed.

(** On ASCII names the key is the lowered name. *)
Lemma sorted_casefold_ascii (cf : Folding) (l : list string) :
  Forall (fun s => is_ascii s = true) l ->
  sorted (casefold cf) l = sorted ascii_lower l.
Proof.
  intros Hl. apply sorted_ext. eapply Forall_impl; [exact Hl|].
  intros s Hs. by apply casefold_ascii.
Qed.

(** ** Name normalisation (C2, C3, C10) *)

Lemma strip_sigil_nonempty (user : string) :
  user <> "" -> strip_sigil user = Ok (stored_name user).
Proof. destruct user as [|c rest]; [done|]. simpl. by destruct (Ascii.eqb c "@"). Qed.

Lemma strip_sigil_inv (user name : string) :
  strip_sigil user = Ok name -> user <> "" /\ name = stored_name user.
Proof.
  destruct user as [|c rest]; [done|]. simpl.
  destruct (Ascii.eqb c "@"); intros [= <-]; done.
Qed.

Lemma normalize_loop_nonempty (usernames : list string) (normalized : pyset) :
  Forall (fun u => u <> "") usernames ->
  normalize_loop usernames normalized = Ok (normalized ++ map stored_name usernames).
Proof.
  intros H. revert normalized.
  induction H as [|u us Hu _ IH]; intros normalized; simpl.
  - by rewrite app_nil_r.
  - rewrite (strip_sigil_nonempty u Hu), IH. unfold set_add.
    by rewrite <- app_assoc.
Qed.

Lemma normalize_loop_empty_name (usernames : list string) (normalized : pyset) :
  "" ∈ usernames -> normalize_loop usernames normalized = Raise IndexError.
Proof.
  revert normalized. induction usernames as [|u us IH]; intros normalized Hin.
  - by apply elem_of_nil in Hin.
  - simpl. destruct u as [|c rest]; [done|].
    apply elem_of_cons in Hin as [Hin|Hin]; [done|].
    simpl. destruct (Ascii.eqb c "@"); by apply IH.
Qed.

Lemma normalize_loop_inv (usernames : list string) (normalized s : pyset) :
  normalize_loop usernames normalized = Ok s ->
  Forall (fun u => u <> "") usernames.
Proof.
  revert normalized. induction usernames as [|u us IH]; intros normalized H; [constructor|].
  simpl in H. destruct (strip_sigil u) as [name|e] eqn:E; [|done].
  constructor; [by apply strip_sigil_inv in E as [? _]|by eapply IH].
Qed.

Lemma normalize_usernames_nonempty (cf : Folding) iter (usernames : list string) :
  Forall (fun u => u <> "") usernames ->
  _normalize_usernames cf iter usernames = Ok (sorted (casefold cf) (iter (map stored_name usernames))).
Proof.
  intros H. unfold _normalize_usernames. by rewrite (normalize_loop_nonempty _ [] H).
Qed.

(** The iteration oracle gives a duplicate-free enumeration of the adds. *)
Lemma iter_elem_of iter (s : pyset) (x : string) :
  set_iteration_order iter -> x ∈ iter s <-> x ∈ s.
Proof. intros H. apply H. Qed.

Lemma iter_NoDup iter (s : pyset) : set_iteration_order iter -> NoDup (iter s).
Proof. intros H. apply H. Qed.

Lemma remove_dups_iteration_order : set_iteration_order remove_dups.
Proof. intros s. split; [apply NoDup_remove_dups|intros x; apply elem_of_remove_dups]. Qed.

Lemma normalize_usernames_NoDup (cf : Folding) iter (usernames r : list string) :
  set_iteration_order iter ->
  _normalize_usernames cf iter usernames = Ok r -> NoDup r.
Proof.
  intros Hiter. unfold _normalize_usernames.
  destruct (normalize_loop usernames []) as [s|e]; [|done].
  intros [= <-]. rewrite sorted_perm. by apply iter_NoDup.
Qed.

Lemma normalize_usernames_elem_of (cf : Folding) iter (usernames : list string) (n : string) :
  set_iteration_order iter ->
  Forall (fun u => u <> "") usernames ->
  n ∈ sorted (casefold cf) (iter (map stored_name usernames)) <->
  exists u, u ∈ usernames /\ n = stored_name u.
Proof.
  intros Hiter Hne. rewrite sorted_perm, (iter_elem_of iter _ _ Hiter), list_elem_of_fmap.
  split; intros (u & H1 & H2); eauto.
Qed.

(** The six ways to enumerate three different names. *)
Lemma three_names (l : list string) (a b c : string) :
  NoDup l -> (forall x, x ∈ l <-> x ∈ [a; b; c]) ->
  a <> b -> a <> c -> b <> c ->
  l = [a; b; c] \/ l = [a; c; b] \/ l = [b; a; c] \/
  l = [b; c; a] \/ l = [c; a; b] \/ l = [c; b; a].
Proof.
  intros Hnd Hel Hab Hac Hbc.
  assert (Hp : l ≡ₚ [a; b; c]).
  { apply NoDup_Permutation; [done| |done].
    rewrite !NoDup_cons, !not_elem_of_cons, !elem_of_nil.
    repeat split; auto using NoDup_nil_2. }
  pose proof (Permutation_length Hp) as Hlen.
  destruct l as [|x [|y [|z [|]]]]; try discriminate Hlen.
  assert (Hx : x ∈ [a; b; c]) by (apply Hel; rewrite !elem_of_cons; auto).
  assert (Hy : y ∈ [a; b; c]) by (apply Hel; rewrite !elem_of_cons; auto).
  assert (Hz : z ∈ [a; b; c]) by (apply Hel; rewrite !elem_of_cons; auto).
  rewrite !NoDup_cons, !not_elem_of_cons in Hnd.
  rewrite !elem_of_cons, !elem_of_nil in Hx, Hy, Hz.
  destruct Hx as [->|[->|[->|[]]]], Hy as [->|[->|[->|[]]]], Hz as [->|[->|[->|[]]]];
    intuition congruence.
Qed.

(** C2 (as amended).  For the names ["@Bob"; "bob"; "Alice"] normalisation
    gives three names, whatever the iteration order of the set: "Alice"
    first, then "Bob" and "bob" in one order or the other.  The set tells
    "Bob" from "bob", and their keys under [casefold] are equal, so the
    stable sort leaves them in the order of the set. *)
Theorem C2_normalize_bob_alice (cf : Folding) (iter : pyset -> list string) :
  set_iteration_order iter ->
  _normalize_usernames cf iter bob_names = Ok ["Alice"; "Bob"; "bob"] \/
  _normalize_usernames cf iter bob_names = Ok ["Alice"; "bob"; "Bob"].
Proof.
  intros Hiter. unfold _normalize_usernames, bob_names.
  change (normalize_loop _ _) with (Ok (A:=pyset) ["Bob"; "bob"; "Alice"]).
  destruct (three_names (iter ["Bob"; "bob"; "Alice"]) "Bob" "bob" "Alice")
    as [E|[E|[E|[E|[E|E]]]]]; try done; try (by apply Hiter);
    rewrite E, sorted_casefold_ascii by (by repeat constructor);
    vm_compute; auto.
Qed.

(** C2 at the iteration order [remove_dups]. *)
Lemma C2_normalize_bob_alice_witness :
  _normalize_usernames ascii_folding remove_dups bob_names = Ok ["Alice"; "Bob"; "bob"] \/
  _normalize_usernames ascii_folding remove_dups bob_names = Ok ["Alice"; "bob"; "Bob"].
Proof. apply (C2_normalize_bob_alice ascii_folding remove_dups), remove_dups_iteration_order. Defined.

(** C2 as stated fails: the result has three names, and both "Bob" and
    "bob" are among them. *)
Lemma C2_three_names_not_two :
  exists iter stored,
    set_iteration_order iter /\
    _normalize_usernames ascii_folding iter bob_names = Ok stored /\
    length stored = 3 /\ "Bob" ∈ stored /\ "bob" ∈ stored.
Proof.
  exists remove_dups, ["Alice"; "Bob"; "bob"].
  split; [apply remove_dups_iteration_order|].
  split; [by vm_compute|]. split; [done|]. set_solver.
Qed.

Lemma stored_name_sigil (rest : string) : stored_name (String "@" rest) = rest.
Proof. reflexivity. Qed.

Lemma stored_name_plain (user : string) : has_sigil user = false -> stored_name user = user.
Proof. destruct user as [|c rest]; [done|]. simpl. by intros ->. Qed.

Lemma has_sigil_true (user : string) :
  has_sigil user = true -> exists rest, user = String "@" rest.
Proof.
  destruct user as [|c rest]; [done|]. simpl. intros H%Ascii.eqb_eq. subst. eauto.
Qed.

Lemma strip_sigil_fixed (n : string) :
  n <> "" -> has_sigil n = false -> strip_sigil n = Ok n.
Proof. intros Hn Hs. by rewrite strip_sigil_nonempty, stored_name_plain. Qed.

(** C3 (as amended).  On names that are all non-empty, normalisation stores
    [rest] for every input ["@" ++ rest], stores every other input as it is,
    and stores nothing else.  Normalising the stored list again keeps every
    stored name, in key order again, provided no stored name is empty or
    starts with '@' (only one sigil is taken off a name). *)
Theorem C3_normalize_strips_one_sigil (cf : Folding) (iter : pyset -> list string) (usernames : list string) :
  set_iteration_order iter ->
  Forall (fun u => u <> "") usernames ->
  exists stored,
    _normalize_usernames cf iter usernames = Ok stored /\
    stores_stripped usernames stored /\
    (Forall (fun n => n <> "" /\ has_sigil n = false) stored ->
     renormalizes_to_itself cf stored).
Proof.
  intros Hiter Hne.
  exists (sorted (casefold cf) (iter (map stored_name usernames))).
  split; [by apply normalize_usernames_nonempty|].
  split; [split; [|split]|].
  - intros rest Hin. apply normalize_usernames_elem_of; [done..|].
    exists (String "@" rest). by rewrite stored_name_sigil.
  - intros u Hin Hs. apply normalize_usernames_elem_of; [done..|].
    exists u. by rewrite stored_name_plain.
  - intros n Hin. apply normalize_usernames_elem_of in Hin as (u & Hu & ->); [|done..].
    destruct (has_sigil u) eqn:Hs.
    + apply has_sigil_true in Hs as [rest ->]. by left.
    + right. by rewrite stored_name_plain.
  - set (stored := sorted (casefold cf) (iter (map stored_name usernames))).
    intros Hplain. split.
    { eapply Forall_impl; [exact Hplain|]. intros n [? ?]. by apply strip_sigil_fixed. }
    intros iter' Hiter'.
    assert (Hne' : Forall (fun u => u <> "") stored).
    { eapply Forall_impl; [exact Hplain|]. by intros n [? _]. }
    assert (Hid : map stored_name stored = stored).
    { clear -Hplain. induction Hplain as [|n l [_ Hs] _ IH]; simpl; [done|].
      by rewrite IH, stored_name_plain. }
    exists (sorted (casefold cf) (iter' stored)).
    split; [by rewrite normalize_usernames_nonempty, Hid|].
    split; [|split].
    + rewrite sorted_perm. apply NoDup_Permutation.
      * by apply iter_NoDup.
      * unfold stored. rewrite sorted_perm. by apply iter_NoDup.
      * intros x. by apply iter_elem_of.
    + apply sorted_Sorted.
    + intros ->. apply sorted_id, sorted_Sorted.
Qed.

(** C3 at the names ["@bob"; "Alice"]. *)
Lemma C3_normalize_strips_one_sigil_witness :
  exists stored,
    _normalize_usernames ascii_folding remove_dups ["@bob"; "Alice"] = Ok stored /\
    stores_stripped ["@bob"; "Alice"] stored /\
    (Forall (fun n => n <> "" /\ has_sigil n = false) stored ->
     renormalizes_to_itself ascii_folding stored).
Proof.
  apply (C3_normalize_strips_one_sigil ascii_folding remove_dups ["@bob"; "Alice"]).
  - apply remove_dups_iteration_order.
  - repeat constructor; discriminate.
Defined.

(** C3 as stated fails: ["@@bob"] is stored as ["@bob"], which a second
    normalisation turns into ["bob"]. *)
Lemma C3_not_idempotent :
  set_iteration_order remove_dups /\
  _normalize_usernames ascii_folding remove_dups ["@@bob"] = Ok ["@bob"] /\
  _normalize_usernames ascii_folding remove_dups ["@bob"] = Ok ["bob"] /\
  ["bob"] <> ["@bob"].
Proof.
  split; [apply remove_dups_iteration_order|]. by vm_compute.
Qed.

Lemma normalize_usernames_raises (cf : Folding) iter (usernames : list string) (e : exn) :
  _normalize_usernames cf iter usernames = Raise e -> e = IndexError /\ "" ∈ usernames.
Proof.
  unfold _normalize_usernames.
  destruct (decide ("" ∈ usernames)) as [Hin|Hnin].
  - rewrite (normalize_loop_empty_name _ _ Hin). by intros [= <-].
  - rewrite normalize_loop_nonempty; [done|].
    apply Forall_forall. intros u Hu ->. by apply Hnin, list_elem_of_In.
Qed.

(** C10.  Normalisation returns exactly on the lists whose names are all
    non-empty, and raises [IndexError] exactly on the lists with an empty
    name.  A blank line in the user-list file is such a name: [store_args]
    on [blank_line_file] raises [IndexError]. *)
Theorem C10_normalize_total_iff_nonempty (cf : Folding) (iter : pyset -> list string) (usernames : list string) :
  (Forall (fun u => u <> "") usernames <->
     exists stored, _normalize_usernames cf iter usernames = Ok stored) /\
  ("" ∈ usernames <-> _normalize_usernames cf iter usernames = Raise IndexError) /\
  (map rstrip_newline (file_iter blank_line_file) = ["alice"; ""; "bob"] /\
   store_args (fun _ => Ok blank_line_file) cf iter blank_line_args = Raise IndexError).
Proof.
  split; [|split].
  - split.
    + intros H. rewrite normalize_usernames_nonempty by done. eauto.
    + intros [stored H]. unfold _normalize_usernames in H.
      destruct (normalize_loop usernames []) eqn:E; [|done].
      by eapply normalize_loop_inv.
  - split.
    + intros H. unfold _normalize_usernames. by rewrite normalize_loop_empty_name.
    + intros H. by apply normalize_usernames_raises in H as [_ ?].
  - split; [by vm_compute|].
    change (store_args _ cf iter blank_line_args)
      with (_normalize_usernames cf iter ["alice"; ""; "bob"]).
    unfold _normalize_usernames. rewrite normalize_loop_empty_name; [done|].
    apply list_elem_of_further, list_elem_of_here.
Qed.

(** ** Option validation (C1) *)

Lemma main_rejected (w : world) (args : Namespace) (e : exn) :
  store_args (fs w) (str_casefold w) (set_iter w) args = Raise e -> main w args = ([], Raised e).
Proof. intros H. unfold main. by rewrite H. Qed.

Lemma message_source_given_iff (args : Namespace) :
  message_source_given args = true <->
  (opt_truthy (arg_url args) = true /\ opt_truthy (arg_deadline args) = true) \/
  opt_truthy (arg_message args) = true.
Proof.
  unfold message_source_given.
  destruct (opt_truthy (arg_url args)), (opt_truthy (arg_deadline args)),
    (opt_truthy (arg_message args)); simpl; intuition congruence.
Qed.

Lemma normalize_usernames_no_usage_error (cf : Folding) iter (usernames : list string) :
  usage_error (_normalize_usernames cf iter usernames) = false.
Proof.
  destruct (_normalize_usernames cf iter usernames) as [r|e] eqn:E; [done|].
  by apply normalize_usernames_raises in E as [-> _].
Qed.

(** C1 (as amended).  Once at least one recipient name is compiled,
    [store_args] ends in a usage error exactly when no message source is
    given, that is neither a url with a deadline nor a message file.  A run
    that gives both sources is accepted and goes on to normalise the names.
    Whenever [store_args] raises, the script stops with an empty trace: no
    call to the Slack client has been made. *)
Theorem C1_store_args_message_source (cf : Folding) (files : string -> result string)
    (iter : pyset -> list string) (args : Namespace) (u : string) (us : list string) :
  _compile_lists files args [] = Ok (u :: us) ->
  (usage_error (store_args files cf iter args) = true <->
     ~ ((opt_truthy (arg_url args) = true /\ opt_truthy (arg_deadline args) = true) \/
        opt_truthy (arg_message args) = true)) /\
  (opt_truthy (arg_url args) = true -> opt_truthy (arg_deadline args) = true ->
   opt_truthy (arg_message args) = true ->
     store_args files cf iter args = _normalize_usernames cf iter (u :: us)) /\
  (forall (w : world) (e : exn),
     store_args (fs w) (str_casefold w) (set_iter w) args = Raise e -> main w args = ([], Raised e)).
Proof.
  intros Hlists. rewrite <- message_source_given_iff.
  split; [|split].
  - unfold store_args. rewrite Hlists.
    destruct (message_source_given args); simpl.
    + rewrite normalize_usernames_no_usage_error. split; [done|]. intros H. by destruct H.
    + split; [by intros _ ?|done].
  - intros Hu Hd Hm. unfold store_args. rewrite Hlists.
    unfold message_source_given. by rewrite Hu, Hd, Hm.
  - intros w e. apply main_rejected.
Qed.

(** C1 at a run that gives both sources. *)
Lemma C1_store_args_message_source_witness :
  (usage_error (store_args no_files ascii_folding remove_dups both_sources_args) = true <->
     ~ ((opt_truthy (arg_url both_sources_args) = true /\
         opt_truthy (arg_deadline both_sources_args) = true) \/
        opt_truthy (arg_message both_sources_args) = true)) /\
  (opt_truthy (arg_url both_sources_args) = true ->
   opt_truthy (arg_deadline both_sources_args) = true ->
   opt_truthy (arg_message both_sources_args) = true ->
     store_args no_files ascii_folding remove_dups both_sources_args =
     _normalize_usernames ascii_folding remove_dups ["alice"]) /\
  (forall (w : world) (e : exn),
     store_args (fs w) (str_casefold w) (set_iter w) both_sources_args = Raise e ->
     main w both_sources_args = ([], Raised e)).
Proof.
  apply (C1_store_args_message_source ascii_folding no_files remove_dups both_sources_args
           "alice" []).
  reflexivity.
Defined.

(** C1 as stated fails: a message file together with a url and a deadline
    passes validation. *)
Lemma C1_both_sources_accepted :
  opt_truthy (arg_message both_sources_args) = true /\
  opt_truthy (arg_url both_sources_args) = true /\
  opt_truthy (arg_deadline both_sources_args) = true /\
  store_args no_files ascii_folding remove_dups both_sources_args = Ok ["alice"].
Proof. by vm_compute. Qed.

(** ** Programs *)

Lemma bind_emit {A} (e : event) (p : prog A) :
  bind (emit e) (fun _ => p) = (e :: trace p, final p).
Proof. by destruct p as [t o]. Qed.

Lemma bind_ret {A B} (a : A) (k : A -> prog B) : bind (ret a) k = k a.
Proof. unfold bind, ret. by destruct (k a). Qed.

Lemma bind_lift_ok {A B} (a : A) (k : A -> prog B) : bind (lift (Ok a)) k = k a.
Proof. apply bind_ret. Qed.

(** ** The directory lookup (C4, C5, C6) *)

Lemma FetchUserIds_loop_first_call (answers : list Response) (user_ids : list User)
    (users : list string) (next : string) :
  exists rest,
    trace (FetchUserIds_loop answers user_ids users next) =
    ApiCall (users_list 250 next) :: rest.
Proof.
  destruct answers as [|response answers]; simpl; [by eexists|].
  rewrite bind_emit. by eexists.
Qed.

Lemma FetchUserIds_loop_rate_limited (answers : list Response) (response : Response)
    (user_ids : list User) (users : list string) (next : string) :
  ok response = false -> ratelimited response = true ->
  FetchUserIds_loop (response :: answers) user_ids users next =
  (ApiCall (users_list 250 next) :: Print "pausing..." :: Sleep 3 ::
     trace (FetchUserIds_loop answers user_ids users next),
   final (FetchUserIds_loop answers user_ids users next)).
Proof.
  intros Hok Hrl. simpl. rewrite Hok, Hrl. simpl.
  by rewrite !bind_emit.
Qed.

Lemma FetchUserIds_loop_failed (answers : list Response) (response : Response)
    (user_ids : list User) (users : list string) (next : string) :
  ok response = false -> ratelimited response = false ->
  FetchUserIds_loop (response :: answers) user_ids users next =
  ([ApiCall (users_list 250 next); PrintResponse response], Raised RuntimeError).
Proof. intros Hok Hrl. simpl. by rewrite Hok, Hrl. Qed.

Lemma FetchUserIds_loop_page (answers : list Response) (response : Response)
    (user_ids user_ids' : list User) (users users' : list string) (next : string) :
  ok response = true ->
  process_page response user_ids users = Ok (user_ids', users') ->
  FetchUserIds_loop (response :: answers) user_ids users next =
  match continuation response users' with
  | None => ([ApiCall (users_list 250 next)], Returned (user_ids', users'))
  | Some next' =>
      (ApiCall (users_list 250 next) ::
         trace (FetchUserIds_loop answers user_ids' users' next'),
       final (FetchUserIds_loop answers user_ids' users' next'))
  end.
Proof.
  intros Hok Hpage. simpl. rewrite Hok, Hpage. simpl.
  rewrite bind_emit, bind_lift_ok.
  by destruct (continuation response users') as [next'|].
Qed.

Lemma FetchUserIds_loop_page_raises (answers : list Response) (response : Response)
    (user_ids : list User) (users : list string) (next : string) (e : exn) :
  ok response = true ->
  process_page response user_ids users = Raise e ->
  FetchUserIds_loop (response :: answers) user_ids users next =
  ([ApiCall (users_list 250 next)], Raised e).
Proof. intros Hok Hpage. simpl. by rewrite Hok, Hpage. Qed.

Lemma continuation_None (response : Response) (users : list string) :
  continuation response users = None <-> stops response users.
Proof.
  unfold continuation, stops.
  destruct users as [|u users]; [by split; [left|]|].
  destruct (response_metadata response) as [[cursor]|]; simpl;
    [|by split; [right; left|]].
  destruct cursor as [[|c next]|]; simpl.
  - split; [intros _|done]. right. right. eexists. split; [done|by right].
  - split; [done|]. by intros [?|[?|(metadata & [= <-] & [?|?])]].
  - split; [intros _|done]. right. right. eexists. split; [done|by left].
Qed.

Lemma continuation_Some (response : Response) (users : list string) (next : string) :
  continuation response users = Some next <->
  users <> [] /\ next <> "" /\
  exists metadata, response_metadata response = Some metadata /\
                   next_cursor metadata = Some next.
Proof.
  unfold continuation.
  destruct users as [|u users]; [by split; [|intros [? _]]|].
  destruct (response_metadata response) as [[cursor]|]; simpl;
    [|by split; [|intros (_ & _ & metadata & ? & _)]].
  destruct cursor as [[|c next']|]; simpl.
  - split; [done|]. by intros (_ & Hne & metadata & [= <-] & [= <-]).
  - split.
    + intros [= <-]. repeat split; [done..|]. by eexists.
    + by intros (_ & _ & metadata & [= <-] & [= ->]).
  - split; [done|]. by intros (_ & _ & metadata & [= <-] & ?).
Qed.

(** The four ways one round of the loop can go, each with its equation:
    a page that is processed, a page on which the processing raises, a
    rate-limited failure and any other failure. *)
Ltac loop_round response user_ids users :=
  let Hok := fresh "Hok" in
  let Hrl := fresh "Hrl" in
  let Hp := fresh "Hp" in
  destruct (ok response) eqn:Hok;
  [ destruct (process_page response user_ids users) as [[? ?]|?] eqn:Hp;
    [ rewrite ?(FetchUserIds_loop_page _ _ _ _ _ _ _ Hok Hp)
    | rewrite ?(FetchUserIds_loop_page_raises _ _ _ _ _ _ Hok Hp) ]
  | destruct (ratelimited response) eqn:Hrl;
    [ rewrite ?(FetchUserIds_loop_rate_limited _ _ _ _ _ Hok Hrl)
    | rewrite ?(FetchUserIds_loop_failed _ _ _ _ _ Hok Hrl) ] ].

Lemma rate_limited_failure_true (response : Response) :
  rate_limited_failure response = true <->
  ok response = false /\ ratelimited response = true.
Proof.
  unfold rate_limited_failure. destruct (ok response), (ratelimited response); simpl;
    intuition congruence.
Qed.

(** Rate-limited answers leave no mark on the result. *)
Lemma FetchUserIds_loop_skip_rate_limited (answers : list Response)
    (user_ids : list User) (users : list string) (next : string) :
  final (FetchUserIds_loop answers user_ids users next) =
  final (FetchUserIds_loop (filter (fun a => rate_limited_failure a = false) answers)
           user_ids users next).
Proof.
  revert user_ids users next.
  induction answers as [|response answers IH]; intros user_ids users next; [done|].
  destruct (rate_limited_failure response) eqn:Hf.
  - rewrite filter_cons_False by congruence.
    apply rate_limited_failure_true in Hf as [Hok Hrl].
    rewrite (FetchUserIds_loop_rate_limited _ _ _ _ _ Hok Hrl). apply IH.
  - rewrite filter_cons_True by done.
    assert (Hnot : ~ (ok response = false /\ ratelimited response = true))
      by (rewrite <- rate_limited_failure_true; congruence).
    loop_round response user_ids users; simpl; [|done|by destruct Hnot|done].
    destruct (continuation response _); simpl; [apply IH|done].
Qed.

Lemma FetchUserIds_loop_only_rate_limited (answers : list Response)
    (user_ids : list User) (users : list string) (next : string) :
  Forall (fun a => rate_limited_failure a = true) answers ->
  final (FetchUserIds_loop answers user_ids users next) = Running.
Proof.
  induction 1 as [|response answers Hr _ IH]; [done|].
  apply andb_prop in Hr as [Hok%negb_true_iff Hrl].
  by rewrite (FetchUserIds_loop_rate_limited _ _ _ _ _ Hok Hrl).
Qed.

Lemma list_contains_elem_of (name : string) (users : list string) :
  list_contains name users = true <-> name ∈ users.
Proof.
  unfold list_contains. rewrite existsb_exists. split.
  - intros (u & Hin & Heq%String.eqb_eq). subst. by apply list_elem_of_In.
  - intros Hin. exists name. split; [by apply list_elem_of_In|apply String.eqb_refl].
Qed.

Lemma list_contains_not_elem_of (name : string) (users : list string) :
  list_contains name users = false <-> name ∉ users.
Proof. rewrite <- list_contains_elem_of. by destruct (list_contains name users). Qed.

(** Removing a name that is there takes one occurrence out. *)
Lemma list_remove_first_perm (name : string) (users : list string) :
  name ∈ users -> name :: list_remove_first name users ≡ₚ users.
Proof.
  induction users as [|u users IH]; intros Hin; [by apply elem_of_nil in Hin|].
  simpl. destruct (String.eqb name u) eqn:E.
  - apply String.eqb_eq in E. by subst.
  - apply String.eqb_neq in E. apply elem_of_cons in Hin as [?|Hin]; [done|].
    rewrite Permutation_swap. by rewrite IH.
Qed.

(** What one directory entry does to the two lists. *)
Lemma match_member_cases : first_match_wins.
Proof.
  intros member user_ids users.
  unfold match_member. destruct (member_id member) as [id|]; [|done].
  destruct (list_contains _ users) eqn:Hn.
  - right. exists id, (default "" (member_name member)).
    apply list_contains_elem_of in Hn. eauto 10.
  - apply list_contains_not_elem_of in Hn.
    destruct (list_contains (default "" (member_real_name member)) users) eqn:Hr.
    + right. exists id, (default "" (member_real_name member)).
      apply list_contains_elem_of in Hr. eauto 10.
    + left. apply list_contains_not_elem_of in Hr. eauto.
Qed.

(** The names matched so far and the names still outstanding are, together,
    the names asked for. *)
Lemma match_member_partition (member : Member) (user_ids user_ids' : list User)
    (users users' : list string) :
  match_member member user_ids users = Ok (user_ids', users') ->
  map user_name user_ids' ++ users' ≡ₚ map user_name user_ids ++ users.
Proof.
  intros H. pose proof (match_member_cases member user_ids users) as Hc.
  rewrite H in Hc. simpl in Hc.
  destruct Hc as [(_ & _ & -> & ->)|(id & matched & _ & -> & -> & Hin & _)]; [done|].
  rewrite map_app, <- app_assoc. simpl.
  by rewrite list_remove_first_perm.
Qed.

Lemma match_members_partition (page : list Member) (user_ids user_ids' : list User)
    (users users' : list string) :
  match_members page user_ids users = Ok (user_ids', users') ->
  map user_name user_ids' ++ users' ≡ₚ map user_name user_ids ++ users.
Proof.
  revert user_ids users.
  induction page as [|member page IH]; intros user_ids users; simpl.
  - by intros [= -> ->].
  - destruct (match_member member user_ids users) as [[ids1 users1]|e] eqn:E; [|done].
    intros H. rewrite (IH _ _ H). by eapply match_member_partition.
Qed.

Lemma process_page_partition (response : Response) (user_ids user_ids' : list User)
    (users users' : list string) :
  process_page response user_ids users = Ok (user_ids', users') ->
  map user_name user_ids' ++ users' ≡ₚ map user_name user_ids ++ users.
Proof.
  unfold process_page. destruct (members response) as [page|].
  - apply match_members_partition.
  - by intros [= -> ->].
Qed.

Lemma FetchUserIds_loop_partition (answers : list Response) (user_ids ids : list User)
    (users rest : list string) (next : string) :
  final (FetchUserIds_loop answers user_ids users next) = Returned (ids, rest) ->
  map user_name ids ++ rest ≡ₚ map user_name user_ids ++ users.
Proof.
  revert user_ids users next.
  induction answers as [|response answers IH]; intros user_ids users next; [done|].
  loop_round response user_ids users; simpl; [|done|apply IH|done].
  apply process_page_partition in Hp.
  destruct (continuation response _); simpl.
  - intros H. by rewrite (IH _ _ _ H).
  - by intros [= <- <-].
Qed.

Lemma FetchUserIds_no_double_match (answers : list Response) (users rest : list string)
    (ids : list User) :
  NoDup users ->
  final (FetchUserIds answers users) = Returned (ids, rest) ->
  map user_name ids ++ rest ≡ₚ users /\
  NoDup (map user_name ids) /\
  forall n, n ∈ map user_name ids -> n ∉ rest.
Proof.
  intros Hnd H. apply FetchUserIds_loop_partition in H. simpl in H.
  split; [done|]. rewrite <- H in Hnd.
  apply NoDup_app in Hnd as (? & ? & ?). done.
Qed.

Lemma store_args_NoDup (cf : Folding) fs iter (args : Namespace) (users : list string) :
  set_iteration_order iter -> store_args fs cf iter args = Ok users -> NoDup users.
Proof.
  intros Hiter. unfold store_args.
  destruct (_compile_lists fs args []) as [[|u us]|e]; [done| |done].
  destruct (negb (message_source_given args)); [done|].
  by apply normalize_usernames_NoDup.
Qed.

(** C4.  A directory entry gives at most one recipient, its short name being
    tried before its real name ([first_match_wins]).  On the names
    [store_args] hands over, a lookup that returns has split them: the
    matched names and the names left over are together the names asked for,
    no name is matched twice, and no matched name is still outstanding. *)
Theorem C4_first_match_wins_no_double_match (cf : Folding) (files : string -> result string)
    (iter : pyset -> list string) (args : Namespace) (answers : list Response)
    (users rest : list string) (ids : list User) :
  set_iteration_order iter ->
  store_args files cf iter args = Ok users ->
  final (FetchUserIds answers users) = Returned (ids, rest) ->
  first_match_wins /\
  map user_name ids ++ rest ≡ₚ users /\
  NoDup (map user_name ids) /\
  (forall n, n ∈ map user_name ids -> n ∉ rest).
Proof.
  intros Hiter Hargs Hfetch. split; [exact match_member_cases|].
  eapply FetchUserIds_no_double_match; [|done].
  by eapply store_args_NoDup.
Qed.

(** C4 on [two_pages], where "Alice" is matched on the first page and shows
    up again as a real name on the second. *)
Lemma C4_first_match_wins_no_double_match_witness :
  final (FetchUserIds two_pages ["Alice"; "bob"]) =
    Returned ([mkUser "U1" "Alice"; mkUser "U3" "bob"], []) /\
  (first_match_wins /\
   map user_name [mkUser "U1" "Alice"; mkUser "U3" "bob"] ++ [] ≡ₚ ["Alice"; "bob"] /\
   NoDup (map user_name [mkUser "U1" "Alice"; mkUser "U3" "bob"]) /\
   (forall n, n ∈ map user_name [mkUser "U1" "Alice"; mkUser "U3" "bob"] -> n ∉ [])).
Proof.
  split; [reflexivity|].
  apply (C4_first_match_wins_no_double_match ascii_folding no_files remove_dups alice_bob_args
           two_pages ["Alice"; "bob"] [] [mkUser "U1" "Alice"; mkUser "U3" "bob"]).
  - apply remove_dups_iteration_order.
  - reflexivity.
  - reflexivity.
Defined.

Lemma main_fetch_raised (w : world) (args : Namespace) (users : list string)
    (from_user : OriginatingUser) (t1 t2 : list event) (e : exn) :
  store_args (fs w) (str_casefold w) (set_iter w) args = Ok users ->
  OriginatingUser_init (profile_answer w) = (t1, Returned from_user) ->
  FetchUserIds (users_list_answers w) users = (t2, Raised e) ->
  main w args = (t1 ++ t2, Raised e).
Proof.
  intros Hs Ho Hf. unfold main. rewrite Hs, bind_lift_ok, Ho.
  unfold bind at 1. by rewrite Hf.
Qed.

(** C5.  On a failed call that is rate-limited, the loop prints, sleeps 3
    seconds and runs on with the same [user_ids], [users] and [next]: its
    next event is the same request again.  Any other failed call prints the
    response and raises [RuntimeError].  So the result of a lookup does not
    depend on the rate-limited answers, a lookup that has seen nothing else
    is still running, and an exception of the lookup ends the script. *)
Theorem C5_rate_limited_page_is_retried (answers : list Response) (response : Response)
    (user_ids : list User) (users : list string) (next : string) :
  ok response = false ->
  (ratelimited response = true ->
     FetchUserIds_loop (response :: answers) user_ids users next =
       (ApiCall (users_list 250 next) :: Print "pausing..." :: Sleep 3 ::
          trace (FetchUserIds_loop answers user_ids users next),
        final (FetchUserIds_loop answers user_ids users next)) /\
     exists rest,
       trace (FetchUserIds_loop answers user_ids users next) =
       ApiCall (users_list 250 next) :: rest) /\
  (ratelimited response = false ->
     FetchUserIds_loop (response :: answers) user_ids users next =
       ([ApiCall (users_list 250 next); PrintResponse response], Raised RuntimeError)) /\
  (forall (all : list Response) (requested : list string),
     final (FetchUserIds all requested) =
     final (FetchUserIds (filter (fun a => rate_limited_failure a = false) all) requested)) /\
  (forall (all : list Response) (requested : list string),
     Forall (fun a => rate_limited_failure a = true) all ->
     final (FetchUserIds all requested) = Running) /\
  (forall (w : world) (args : Namespace) (requested : list string)
          (from_user : OriginatingUser) (t1 t2 : list event) (e : exn),
     store_args (fs w) (str_casefold w) (set_iter w) args = Ok requested ->
     OriginatingUser_init (profile_answer w) = (t1, Returned from_user) ->
     FetchUserIds (users_list_answers w) requested = (t2, Raised e) ->
     main w args = (t1 ++ t2, Raised e)).
Proof.
  intros Hok. repeat split.
  - by apply FetchUserIds_loop_rate_limited.
  - apply FetchUserIds_loop_first_call.
  - intros Hrl. by apply FetchUserIds_loop_failed.
  - intros all requested. apply FetchUserIds_loop_skip_rate_limited.
  - intros all requested. apply FetchUserIds_loop_only_rate_limited.
  - apply main_fetch_raised.
Qed.

(** C5 at a rate-limited answer in front of [two_pages]. *)
Lemma C5_rate_limited_page_is_retried_witness :
  FetchUserIds_loop (failed_response "ratelimited" :: two_pages) [] ["Alice"; "bob"] "" =
  (ApiCall (users_list 250 "") :: Print "pausing..." :: Sleep 3 ::
     trace (FetchUserIds_loop two_pages [] ["Alice"; "bob"] ""),
   final (FetchUserIds_loop two_pages [] ["Alice"; "bob"] "")).
Proof.
  apply (C5_rate_limited_page_is_retried two_pages (failed_response "ratelimited")
           [] ["Alice"; "bob"] ""); reflexivity.
Defined.

(** C6.  After a successful page has been processed, leaving [users'] still
    outstanding, the loop returns exactly when [stops] holds: no name is
    left, the response has no metadata, or the metadata has no cursor or an
    empty one.  It then returns the recipients found and [users'].  Otherwise
    it goes on, and its next event is the request with the new cursor. *)
Theorem C6_pagination_stops (answers : list Response) (response : Response)
    (user_ids user_ids' : list User) (users users' : list string) (next : string) :
  ok response = true ->
  process_page response user_ids users = Ok (user_ids', users') ->
  (stops response users' ->
     FetchUserIds_loop (response :: answers) user_ids users next =
       ([ApiCall (users_list 250 next)], Returned (user_ids', users'))) /\
  (~ stops response users' ->
     exists next' rest,
       next' <> "" /\
       (exists metadata, response_metadata response = Some metadata /\
                         next_cursor metadata = Some next') /\
       trace (FetchUserIds_loop answers user_ids' users' next') =
         ApiCall (users_list 250 next') :: rest /\
       FetchUserIds_loop (response :: answers) user_ids users next =
         (ApiCall (users_list 250 next) ::
            trace (FetchUserIds_loop answers user_ids' users' next'),
          final (FetchUserIds_loop answers user_ids' users' next'))).
Proof.
  intros Hok Hpage. rewrite (FetchUserIds_loop_page _ _ _ _ _ _ _ Hok Hpage).
  split.
  - intros Hs. apply continuation_None in Hs. by rewrite Hs.
  - intros Hs. destruct (continuation response users') as [next'|] eqn:Hc.
    + apply continuation_Some in Hc as (_ & Hne & Hmd).
      destruct (FetchUserIds_loop_first_call answers user_ids' users' next') as [rest Hr].
      by exists next', rest.
    + by apply continuation_None in Hc.
Qed.

(** C6 at a single page without a cursor. *)
Lemma C6_pagination_stops_witness :
  FetchUserIds_loop [page_response [mkMember (Some "U1") (Some "Alice") None] None]
    [] ["Alice"; "bob"] "" =
  ([ApiCall (users_list 250 "")], Returned ([mkUser "U1" "Alice"], ["bob"])).
Proof.
  apply (C6_pagination_stops [] (page_response [mkMember (Some "U1") (Some "Alice") None] None)
           [] [mkUser "U1" "Alice"] ["Alice"; "bob"] ["bob"] "");
    [reflexivity|reflexivity|].
  right. right. eexists. split; [reflexivity|]. by left.
Defined.

(** ** The message body *)

Lemma default_message_parts :
  default_message =
  template_part0 +:+ "{0}" +:+ template_part1 +:+ "{1}" +:+ template_part2 +:+
  "{2}" +:+ template_part3 +:+ "{0}" +:+ template_part4.
Proof. vm_compute. reflexivity. Qed.

Lemma append_empty_l (s : string) : "" +:+ s = s.
Proof. reflexivity. Qed.

Lemma append_String (c : ascii) (s t : string) : String c s +:+ t = String c (s +:+ t).
Proof. reflexivity. Qed.

Lemma format_from_text (lit rest : string) (args : list string) :
  brace_free lit = true ->
  format_from Text (lit +:+ rest) args =
  match format_from Text rest args with
  | Ok s => Ok (lit +:+ s)
  | Raise e => Raise e
  end.
Proof.
  induction lit as [|c lit IH]; intros Hb.
  - rewrite append_empty_l. by destruct (format_from Text rest args).
  - simpl in Hb. apply andb_prop in Hb as [Hb Hlit]. apply andb_prop in Hb as [Ho Hc].
    apply negb_true_iff in Ho, Hc.
    rewrite append_String. simpl format_from. rewrite Ho, Hc, (IH Hlit).
    by destruct (format_from Text rest args).
Qed.

(** A field [{N}] with a one-digit index. *)
Lemma format_from_field (d : ascii) (rest : string) (args : list string) (a : string) :
  is_digit d = true -> Ascii.eqb d "{" = false ->
  args !! digit_value d = Some a ->
  format_from Text (String "{" (String d (String "}" rest))) args =
  match format_from Text rest args with Ok s => Ok (a +:+ s) | Raise e => Raise e end.
Proof. intros Hd Hb H. simpl format_from. by rewrite Hb, Hd, H. Qed.

Lemma format_default_message (first url deadline : string) :
  format default_message [first; url; deadline] = Ok (rendered first url deadline).
Proof.
  unfold format, rendered. rewrite default_message_parts.
  rewrite (format_from_text template_part0) by (by vm_compute).
  rewrite ?append_String, ?append_empty_l, (format_from_field _ _ _ first) by done.
  rewrite (format_from_text template_part1) by (by vm_compute).
  rewrite ?append_String, ?append_empty_l, (format_from_field _ _ _ url) by done.
  rewrite (format_from_text template_part2) by (by vm_compute).
  rewrite ?append_String, ?append_empty_l, (format_from_field _ _ _ deadline) by done.
  rewrite (format_from_text template_part3) by (by vm_compute).
  rewrite ?append_String, ?append_empty_l, (format_from_field _ _ _ first) by done.
  replace template_part4 with (template_part4 +:+ "") at 1 by (by vm_compute).
  rewrite (format_from_text template_part4) by (by vm_compute).
  simpl format_from.
  by replace (template_part4 +:+ "") with template_part4 by (by vm_compute).
Qed.

(** ** Dispatch and the whole script (C7, C8, C9) *)

Lemma trace_bind {A B} (m : prog A) (k : A -> prog B) :
  trace (bind m k) =
  trace m ++ match final m with Returned a => trace (k a) | _ => [] end.
Proof.
  destruct m as [t [a|e|]]; simpl; [|by rewrite app_nil_r..].
  unfold bind. by destruct (k a).
Qed.

Lemma api_calls_app (t1 t2 : list event) : api_calls (t1 ++ t2) = api_calls t1 ++ api_calls t2.
Proof.
  induction t1 as [|e t1 IH]; [done|]. destruct e; simpl; by rewrite ?IH.
Qed.

Lemma api_calls_live_events (_message : string) (from_user : OriginatingUser)
    (users : list User) :
  api_calls (live_events _message from_user users) =
  map (fun user => chat_postMessage (user_id user) _message (username from_user)) users.
Proof. induction users as [|u users IH]; simpl; [done|]. by rewrite IH. Qed.

(** Live mode, every post answered with success. *)
Lemma send_loop_live_ok (post : nat -> Response) (_message : string)
    (from_user : OriginatingUser) (users : list User) (i : nat) :
  (forall j, j < length users -> ok (post (i + j)) = true) ->
  send_loop post _message from_user users false i =
  (live_events _message from_user users, Returned tt).
Proof.
  revert i. induction users as [|u users IH]; intros i Hok; [done|].
  simpl. rewrite !bind_emit.
  assert (H0 : ok (post i) = true).
  { rewrite <- (Nat.add_0_r i). apply Hok. simpl. lia. }
  rewrite H0. simpl. rewrite IH; [done|].
  intros j Hj. replace (S i + j) with (i + S j) by lia. apply Hok. simpl. lia.
Qed.

(** Live mode, the post number [k] is the first one to fail. *)
Lemma send_loop_live_fail (post : nat -> Response) (_message : string)
    (from_user : OriginatingUser) (users : list User) (i k : nat) :
  k < length users ->
  (forall j, j < k -> ok (post (i + j)) = true) ->
  ok (post (i + k)) = false ->
  send_loop post _message from_user users false i =
  (live_events _message from_user (take (S k) users) ++ [PrintResponse (post (i + k))],
   Raised RuntimeError).
Proof.
  revert i k. induction users as [|u users IH]; intros i k Hk Hok Hfail; [simpl in Hk; lia|].
  simpl. rewrite !bind_emit. destruct k as [|k].
  - rewrite Nat.add_0_r in *. by rewrite Hfail.
  - assert (H0 : ok (post i) = true).
    { rewrite <- (Nat.add_0_r i). apply Hok. lia. }
    rewrite H0. simpl. rewrite (IH (S i) k).
    + simpl. by replace (S (i + k)) with (i + S k) by lia.
    + simpl in Hk. lia.
    + intros j Hj. replace (S i + j) with (i + S j) by lia. apply Hok. lia.
    + by replace (S i + k) with (i + S k) by lia.
Qed.

Lemma send_loop_dry (post : nat -> Response) (_message : string)
    (from_user : OriginatingUser) (users : list User) (i : nat) :
  send_loop post _message from_user users true i =
  (map (fun user => Print ("Would have notified @" +:+ user_name user)) users, Returned tt).
Proof.
  revert i. induction users as [|u users IH]; intros i; [done|].
  simpl. by rewrite bind_emit, IH.
Qed.

Lemma send_live (post : nat -> Response) (_message : string)
    (from_user : OriginatingUser) (users : list User) :
  send post _message from_user users false =
  send_loop post _message from_user users false 0.
Proof. unfold send. by rewrite bind_ret. Qed.

Lemma send_dry (post : nat -> Response) (_message : string)
    (from_user : OriginatingUser) (users : list User) :
  send post _message from_user users true = (dry_events _message users, Returned tt).
Proof.
  unfold send, dry_events. unfold bind at 2 3 4. simpl.
  unfold bind. by rewrite send_loop_dry.
Qed.

Lemma OriginatingUser_init_no_post (response : Response) :
  Forall (fun e => is_post e = false) (trace (OriginatingUser_init response)).
Proof.
  unfold OriginatingUser_init. rewrite bind_emit. simpl. constructor; [done|].
  destruct (ok response); simpl.
  - destruct (profile response) as [[[d|] [f|]]|]; simpl; constructor.
  - by repeat constructor.
Qed.

Lemma FetchUserIds_loop_no_post (answers : list Response) (user_ids : list User)
    (users : list string) (next : string) :
  Forall (fun e => is_post e = false) (trace (FetchUserIds_loop answers user_ids users next)).
Proof.
  revert user_ids users next.
  induction answers as [|response answers IH]; intros user_ids users next;
    [by repeat constructor|].
  loop_round response user_ids users; simpl;
    [destruct (continuation response _); simpl|..];
    repeat constructor; apply IH.
Qed.

Lemma report_loop_no_post (unidentified_users : list string) :
  Forall (fun e => is_post e = false) (trace (report_loop unidentified_users)).
Proof.
  induction unidentified_users as [|u us IH]; simpl; [constructor|].
  rewrite bind_emit. simpl. by constructor.
Qed.

Lemma send_loop_posts (post : nat -> Response) (_message : string)
    (from_user : OriginatingUser) (users : list User) (dry : bool) (i : nat) :
  Forall (post_carries _message from_user)
    (trace (send_loop post _message from_user users dry i)).
Proof.
  revert i. induction users as [|u users IH]; intros i; simpl; [constructor|].
  rewrite trace_bind. apply Forall_app. split.
  - destruct dry, (ok (post i)); cbv [bind emit raise ret trace fst negb app];
      by repeat constructor.
  - destruct (final _); [apply IH|constructor..].
Qed.

Lemma send_posts (post : nat -> Response) (_message : string)
    (from_user : OriginatingUser) (users : list User) (dry : bool) :
  Forall (post_carries _message from_user)
    (trace (send post _message from_user users dry)).
Proof.
  destruct dry.
  - rewrite send_dry. simpl. repeat constructor.
    apply Forall_forall. intros e (u & -> & _)%list_elem_of_fmap. done.
  - rewrite send_live. apply send_loop_posts.
Qed.

Lemma post_carries_is_post (_message : string) (from_user : OriginatingUser) (e : event) :
  is_post e = false -> post_carries _message from_user e.
Proof. by destruct e as [[| |]| | |]. Qed.

(** An event [e] that is no post is not in a trace without posts. *)
Ltac not_a_post Hin Hpost lem :=
  let Hno := fresh "Hno" in
  pose proof lem as Hno; rewrite Forall_forall in Hno;
  apply Hno in Hin; congruence.

(** A post of a run is a post of its one call of [send], made as the
    originating user of the run with the body [Message_init] computed. *)
Lemma main_post_from_send (w : world) (args : Namespace) (e : event) :
  e ∈ trace (main w args) -> is_post e = true ->
  exists from_user _message ids,
    final (OriginatingUser_init (profile_answer w)) = Returned from_user /\
    Message_init (fs w) (arg_message args) (arg_url args) (arg_deadline args) from_user
      = Ok _message /\
    e ∈ trace (send (post_answer w) _message from_user ids (arg_dry args)).
Proof.
  unfold main. intros Hin Hpost.
  destruct (store_args (fs w) (str_casefold w) (set_iter w) args) as [usernames|err];
    simpl in Hin; [|by apply elem_of_nil in Hin].
  rewrite bind_lift_ok, trace_bind in Hin. apply elem_of_app in Hin as [Hin|Hin];
    [not_a_post Hin Hpost (OriginatingUser_init_no_post (profile_answer w))|].
  destruct (final (OriginatingUser_init (profile_answer w))) as [from_user| |];
    [|by apply elem_of_nil in Hin..].
  rewrite trace_bind in Hin. apply elem_of_app in Hin as [Hin|Hin];
    [not_a_post Hin Hpost
       (FetchUserIds_loop_no_post (users_list_answers w) [] usernames "")|].
  destruct (final (FetchUserIds (users_list_answers w) usernames)) as [[ids un]| |];
    [|by apply elem_of_nil in Hin..].
  destruct (Message_init (fs w) (arg_message args) (arg_url args) (arg_deadline args)
              from_user) as [_message|err] eqn:Hm; [|by apply elem_of_nil in Hin].
  rewrite bind_lift_ok, trace_bind in Hin. exists from_user, _message, ids.
  split; [done|]. split; [done|].
  apply elem_of_app in Hin as [Hin|Hin]; [done|]. exfalso.
  destruct (final (send _ _ _ _ _)); [|by apply elem_of_nil in Hin..].
  destruct un as [|n un]; [by apply elem_of_nil in Hin|].
  rewrite !bind_emit in Hin. simpl in Hin.
  apply elem_of_cons in Hin as [->|Hin]; [done|].
  apply elem_of_cons in Hin as [->|Hin]; [done|].
  not_a_post Hin Hpost (report_loop_no_post (n :: un)).
Qed.

(** A run has one sender and one body: every post of the run is made as
    the originating user and carries the body [Message_init] computed for
    that user; a run without them makes no post. *)
Lemma main_one_body (w : world) (args : Namespace) :
  match final (OriginatingUser_init (profile_answer w)) with
  | Returned sender =>
      match Message_init (fs w) (arg_message args) (arg_url args) (arg_deadline args)
              sender with
      | Ok body => Forall (post_carries body sender) (trace (main w args))
      | Raise _ => Forall (fun e => is_post e = false) (trace (main w args))
      end
  | _ => Forall (fun e => is_post e = false) (trace (main w args))
  end.
Proof.
  destruct (final (OriginatingUser_init (profile_answer w))) as [sender|exc|] eqn:Ho.
  - destruct (Message_init (fs w) (arg_message args) (arg_url args) (arg_deadline args)
                sender) as [body|err] eqn:Hm;
      apply Forall_forall; intros ev Hin; destruct (is_post ev) eqn:Hpost;
      try done; try (by apply post_carries_is_post);
      destruct (main_post_from_send w args ev Hin Hpost)
        as (from_user & m & ids & Hfrom & Hm' & Hs);
      rewrite Ho in Hfrom; injection Hfrom as <-; rewrite Hm in Hm'; [|done].
    injection Hm' as <-.
    pose proof (send_posts (post_answer w) body sender ids (arg_dry args)) as Hall.
    rewrite Forall_forall in Hall. by apply Hall.
  - apply Forall_forall. intros ev Hin. destruct (is_post ev) eqn:Hpost; [|done].
    destruct (main_post_from_send w args ev Hin Hpost) as (? & ? & ? & Hfrom & _).
    by rewrite Ho in Hfrom.
  - apply Forall_forall. intros ev Hin. destruct (is_post ev) eqn:Hpost; [|done].
    destruct (main_post_from_send w args ev Hin Hpost) as (? & ? & ? & Hfrom & _).
    by rewrite Ho in Hfrom.
Qed.

Lemma dry_events_no_post (_message : string) (users : list User) :
  Forall (fun e => is_post e = false) (dry_events _message users).
Proof.
  unfold dry_events. repeat constructor.
  apply Forall_forall. by intros e (u & -> & _)%list_elem_of_fmap.
Qed.

(** A dry run makes no post at all. *)
Lemma main_dry_no_post (w : world) (args : Namespace) :
  arg_dry args = true ->
  Forall (fun e => is_post e = false) (trace (main w args)).
Proof.
  intros Hdry. apply Forall_forall. intros e Hin.
  destruct (is_post e) eqn:Hpost; [|done].
  destruct (main_post_from_send w args e Hin Hpost) as (from_user & m & ids & _ & _ & Hs).
  rewrite Hdry, send_dry in Hs. simpl in Hs.
  not_a_post Hs Hpost (dry_events_no_post m ids).
Qed.

(** A failed post ends the run: nothing is caught. *)
Lemma main_send_raised (w : world) (args : Namespace) (usernames un : list string)
    (from_user : OriginatingUser) (ids : list User) (_message : string)
    (t1 t2 t3 : list event) (e : exn) :
  store_args (fs w) (str_casefold w) (set_iter w) args = Ok usernames ->
  OriginatingUser_init (profile_answer w) = (t1, Returned from_user) ->
  FetchUserIds (users_list_answers w) usernames = (t2, Returned (ids, un)) ->
  Message_init (fs w) (arg_message args) (arg_url args) (arg_deadline args) from_user
    = Ok _message ->
  send (post_answer w) _message from_user ids (arg_dry args) = (t3, Raised e) ->
  main w args = (t1 ++ t2 ++ t3, Raised e).
Proof.
  intros Hs Ho Hf Hm Hsend. unfold main.
  rewrite Hs, bind_lift_ok, Ho. unfold bind at 1. rewrite Hf.
  unfold bind at 1. rewrite Hm, bind_lift_ok, Hsend. simpl. by rewrite app_nil_r || done.
Qed.

(** C7.  In live mode, when every post succeeds the trace is one notice and
    one post per recipient, in list order, each post made as the
    originator's handle and carrying [_message].  When post [k] is the first
    one to fail, the trace is that of the first [k + 1] recipients followed
    by the printed response, and [RuntimeError] is raised: nothing follows
    the failing post, and nothing undoes the earlier ones.  The exception
    ends the script. *)
Theorem C7_live_send_until_first_failure (post : nat -> Response) (_message : string)
    (from_user : OriginatingUser) (users : list User) :
  ((forall i, i < length users -> ok (post i) = true) ->
     send post _message from_user users false =
       (live_events _message from_user users, Returned tt)) /\
  (forall k,
     k < length users ->
     (forall i, i < k -> ok (post i) = true) ->
     ok (post k) = false ->
     send post _message from_user users false =
       (live_events _message from_user (take (S k) users) ++ [PrintResponse (post k)],
        Raised RuntimeError)) /\
  (forall (sent : list User) (r : Response),
     api_calls (live_events _message from_user sent ++ [PrintResponse r]) =
       map (fun user => chat_postMessage (user_id user) _message (username from_user)) sent /\
     api_calls (live_events _message from_user sent) =
       map (fun user => chat_postMessage (user_id user) _message (username from_user)) sent) /\
  (forall (w : world) (args : Namespace) (usernames un : list string)
          (t1 t2 t3 : list event) (e : exn),
     store_args (fs w) (str_casefold w) (set_iter w) args = Ok usernames ->
     OriginatingUser_init (profile_answer w) = (t1, Returned from_user) ->
     FetchUserIds (users_list_answers w) usernames = (t2, Returned (users, un)) ->
     Message_init (fs w) (arg_message args) (arg_url args) (arg_deadline args) from_user
       = Ok _message ->
     send (post_answer w) _message from_user users (arg_dry args) = (t3, Raised e) ->
     main w args = (t1 ++ t2 ++ t3, Raised e)).
Proof.
  split; [|split; [|split]].
  - intros Hok. rewrite send_live. by apply send_loop_live_ok.
  - intros k Hk Hok Hfail. rewrite send_live. by apply (send_loop_live_fail _ _ _ _ 0 k).
  - intros sent r. rewrite api_calls_app, api_calls_live_events. simpl.
    by rewrite app_nil_r.
  - intros w args usernames un t1 t2 t3 e. apply main_send_raised.
Qed.

(** C8.  With a message file, the body is the contents of the file as they
    are, whatever braces they hold.  Without one, it is the text of
    [default_message] with the originator's first name in the fields 0, the
    url in the field 1 and the deadline in the field 2 ([rendered]; an
    argument that was not given prints as [None]).  A run has one body: it
    is computed once, for the originating user of the run, and every post
    of the run carries it. *)
Theorem C8_message_body (files : string -> result string)
    (message_file url deadline : option string) (from_user : OriginatingUser) :
  (forall path contents,
     message_file = Some path -> str_truthy path = true -> files path = Ok contents ->
     Message_init files message_file url deadline from_user = Ok contents) /\
  (opt_truthy message_file = false ->
     Message_init files message_file url deadline from_user =
       Ok (rendered (firstname from_user)
             (match url with Some u => u | None => "None" end)
             (match deadline with Some d => d | None => "None" end))) /\
  default_message =
    template_part0 +:+ "{0}" +:+ template_part1 +:+ "{1}" +:+ template_part2 +:+
    "{2}" +:+ template_part3 +:+ "{0}" +:+ template_part4 /\
  (forall first u d,
     rendered first u d =
       template_part0 +:+ first +:+ template_part1 +:+ u +:+ template_part2 +:+
       d +:+ template_part3 +:+ first +:+ template_part4) /\
  (forall (w : world) (args : Namespace),
     match final (OriginatingUser_init (profile_answer w)) with
     | Returned sender =>
         match Message_init (fs w) (arg_message args) (arg_url args) (arg_deadline args)
                 sender with
         | Ok body => Forall (post_carries body sender) (trace (main w args))
         | Raise _ => Forall (fun e => is_post e = false) (trace (main w args))
         end
     | _ => Forall (fun e => is_post e = false) (trace (main w args))
     end).
Proof.
  split; [|split; [|split; [|split]]].
  - intros path contents -> Hp Hf. unfold Message_init.
    by rewrite format_default_message, Hp, Hf.
  - intros Hm. unfold Message_init. rewrite format_default_message.
    assert (Hbody : forall o : option string,
              py_str o = match o with Some s => s | None => "None" end)
      by (by intros [s|]).
    rewrite !Hbody.
    destruct message_file as [path|]; [|done]. simpl in Hm. by rewrite Hm.
  - apply default_message_parts.
  - done.
  - apply main_one_body.
Qed.

(** C9.  In a dry run [send] prints a line of dashes, the body, a line of
    dashes, an empty line and then one "Would have notified" line per
    recipient; it calls the Slack client not once.  No trace of the script
    run with [--dry] has a post in it. *)
Theorem C9_dry_run_sends_nothing (post : nat -> Response) (_message : string)
    (from_user : OriginatingUser) (users : list User) :
  send post _message from_user users true = (dry_events _message users, Returned tt) /\
  api_calls (dry_events _message users) = [] /\
  (forall (w : world) (args : Namespace),
     arg_dry args = true ->
     Forall (fun e => is_post e = false) (trace (main w args))).
Proof.
  split; [apply send_dry|]. split; [|apply main_dry_no_post].
  unfold dry_events. simpl. induction users as [|u users IH]; [done|]. apply IH.
Qed.

(** ** Further properties of the code *)

Lemma file_iter_newline (rest : string) :
  file_iter (String newline rest) = String newline "" :: file_iter rest.
Proof. reflexivity. Qed.

Lemma file_iter_other (c : ascii) (rest : string) :
  Ascii.eqb c newline = false ->
  file_iter (String c rest) =
  match file_iter rest with
  | [] => [String c ""]
  | l :: ls => String c l :: ls
  end.
Proof. intros Hc. cbn [file_iter]. by rewrite Hc. Qed.

Lemma rstrip_newline_String (c : ascii) (rest : string) :
  rstrip_newline (String c rest) =
  match rstrip_newline rest with
  | EmptyString => if Ascii.eqb c newline then EmptyString else String c EmptyString
  | r => String c r
  end.
Proof. reflexivity. Qed.

Lemma file_iter_line (n rest : string) :
  one_line n = true ->
  file_iter (n +:+ String newline rest) = (n +:+ String newline "") :: file_iter rest.
Proof.
  induction n as [|c n IH]; intros Hn.
  - by rewrite !append_empty_l, file_iter_newline.
  - cbn [one_line] in Hn. apply andb_prop in Hn as [Hc%negb_true_iff Hn].
    rewrite !append_String, (file_iter_other _ _ Hc), (IH Hn). done.
Qed.

Lemma rstrip_newline_line (n : string) :
  one_line n = true -> rstrip_newline (n +:+ String newline "") = n.
Proof.
  induction n as [|c n IH]; intros Hn.
  - by rewrite append_empty_l.
  - cbn [one_line] in Hn. apply andb_prop in Hn as [Hc%negb_true_iff Hn].
    rewrite append_String, rstrip_newline_String, (IH Hn).
    destruct n; [by rewrite Hc|done].
Qed.

Lemma rstrip_newline_one_line (n : string) : one_line n = true -> rstrip_newline n = n.
Proof.
  induction n as [|c n IH]; intros Hn; [done|].
  cbn [one_line] in Hn. apply andb_prop in Hn as [Hc%negb_true_iff Hn].
  rewrite rstrip_newline_String, (IH Hn). destruct n; [by rewrite Hc|done].
Qed.

Lemma file_iter_last (n : string) :
  one_line n = true -> file_iter n = if str_truthy n then [n] else [].
Proof.
  induction n as [|c n IH]; intros Hn; [done|].
  cbn [one_line] in Hn. apply andb_prop in Hn as [Hc%negb_true_iff Hn].
  rewrite (file_iter_other _ _ Hc), (IH Hn). by destruct n.
Qed.

Lemma file_lines_text_of (names : list string) (last : string) :
  Forall (fun n => one_line n = true) names -> one_line last = true ->
  map rstrip_newline (file_iter (text_of names last)) =
  names ++ (if str_truthy last then [last] else []).
Proof.
  intros Hnames Hlast. induction Hnames as [|n names Hn _ IH]; simpl.
  - rewrite (file_iter_last _ Hlast). destruct last as [|c l]; [done|].
    cbn [str_truthy map]. by rewrite (rstrip_newline_one_line _ Hlast).
  - rewrite (file_iter_line _ _ Hn). simpl map.
    by rewrite (rstrip_newline_line _ Hn), IH.
Qed.

(** X1.  A user-list file is read back line by line: when the file holds
    the lines [names], each ended by a newline, and then a last line [last]
    without one, [_add_users_from_file] appends exactly [names] and, unless
    it is empty, [last].  A blank line comes back as an empty name. *)
Theorem X1_user_list_file_lines (files : string -> result string) (args : Namespace)
    (path : string) (names : list string) (last : string) (usernames : list string) :
  Forall (fun n => one_line n = true) names ->
  one_line last = true ->
  arg_user_list args = Some path -> str_truthy path = true ->
  files path = Ok (text_of names last) ->
  _add_users_from_file files args usernames =
    Ok (usernames ++ names ++ (if str_truthy last then [last] else [])).
Proof.
  intros Hnames Hlast Hpath Htruthy Hfile. unfold _add_users_from_file.
  by rewrite Hpath, Htruthy, Hfile, file_lines_text_of.
Qed.

(** X1 at a concrete input. *)
Lemma X1_user_list_file_lines_witness :
  _add_users_from_file (fun _ => Ok (text_of ["alice"; ""; "@bob"] "carol"))
    blank_line_args ["zed"] =
  Ok (["zed"] ++ ["alice"; ""; "@bob"] ++ (if str_truthy "carol" then ["carol"] else [])).
Proof.
  apply (X1_user_list_file_lines (fun _ => Ok (text_of ["alice"; ""; "@bob"] "carol"))
           blank_line_args "users.txt" ["alice"; ""; "@bob"] "carol" ["zed"]);
    try reflexivity.
  repeat constructor.
Defined.

(** X2.  The normalised list has no duplicates and is in the order of the
    casefolded names; it depends only on which names are stored, not on how
    often or in which order they were given.  The order is blind to the
    case of letters: ASCII names come in the order of their lowered forms,
    so "alice" is before "Bob" and never after it. *)
Theorem X2_normalize_sorted_set (cf : Folding) (iter iter' : pyset -> list string)
    (usernames usernames' stored stored' : list string) :
  set_iteration_order iter -> set_iteration_order iter' ->
  _normalize_usernames cf iter usernames = Ok stored ->
  _normalize_usernames cf iter' usernames' = Ok stored' ->
  NoDup stored /\
  Sorted (key_le (casefold cf)) stored /\
  ((forall n, n ∈ map stored_name usernames <-> n ∈ map stored_name usernames') ->
   stored ≡ₚ stored') /\
  (Forall (fun u => is_ascii u = true) usernames ->
   Sorted (key_le ascii_lower) stored) /\
  key_le (casefold cf) "alice" "Bob" /\
  ~ key_le (casefold cf) "Bob" "alice".
Proof.
  intros Hiter Hiter' H H'.
  split; [by apply (normalize_usernames_NoDup cf iter usernames)|].
  pose proof (normalize_usernames_NoDup cf iter' usernames' stored' Hiter' H') as Hnd'.
  unfold _normalize_usernames in H, H'.
  destruct (normalize_loop usernames []) as [s|] eqn:Hs; [|done].
  destruct (normalize_loop usernames' []) as [s'|] eqn:Hs'; [|done].
  injection H as <-. injection H' as <-.
  pose proof (normalize_loop_inv _ _ _ Hs) as Hne.
  pose proof (normalize_loop_inv _ _ _ Hs') as Hne'.
  rewrite (normalize_loop_nonempty _ [] Hne) in Hs.
  rewrite (normalize_loop_nonempty _ [] Hne') in Hs'.
  injection Hs as <-. injection Hs' as <-. simpl in *.
  split; [apply sorted_Sorted|]. split; [|split; [|split]].
  - intros Hsame.
    apply NoDup_Permutation; [rewrite sorted_perm; by apply iter_NoDup|done|].
    intros n. rewrite !sorted_perm, !iter_elem_of by done. apply Hsame.
  - intros Hascii. apply (Sorted_key_ext (casefold cf)); [|apply sorted_Sorted].
    apply Forall_forall. intros n Hn. apply casefold_ascii.
    rewrite sorted_perm, iter_elem_of in Hn by done.
    apply list_elem_of_fmap in Hn as (u & -> & Hu).
    rewrite Forall_forall in Hascii. specialize (Hascii u Hu).
    destruct u as [|c u]; [done|]. simpl in *.
    apply andb_prop in Hascii as [Hc Hrest]. destruct (Ascii.eqb c "@"); [done|].
    simpl. by rewrite Hc, Hrest.
  - unfold key_le. by rewrite !casefold_ascii.
  - unfold key_le. by rewrite !casefold_ascii.
Qed.

(** X2 at the names "Bob", "@alice" and "@Bob" again. *)
Lemma X2_normalize_sorted_set_witness :
  _normalize_usernames ascii_folding remove_dups ["Bob"; "@alice"; "@Bob"]
    = Ok ["alice"; "Bob"] /\
  NoDup ["alice"; "Bob"] /\
  Sorted (key_le (casefold ascii_folding)) ["alice"; "Bob"] /\
  ((forall n, n ∈ map stored_name ["Bob"; "@alice"; "@Bob"] <->
              n ∈ map stored_name ["alice"; "Bob"]) ->
   ["alice"; "Bob"] ≡ₚ ["alice"; "Bob"]) /\
  (Forall (fun u => is_ascii u = true) ["Bob"; "@alice"; "@Bob"] ->
   Sorted (key_le ascii_lower) ["alice"; "Bob"]) /\
  key_le (casefold ascii_folding) "alice" "Bob" /\
  ~ key_le (casefold ascii_folding) "Bob" "alice".
Proof.
  split; [reflexivity|].
  apply (X2_normalize_sorted_set ascii_folding remove_dups remove_dups
           ["Bob"; "@alice"; "@Bob"] ["alice"; "Bob"]);
    [apply remove_dups_iteration_order..|reflexivity|reflexivity].
Defined.

(** X3.  [store_args] returns exactly when the recipient lists compile to
    at least one name, a message source is given, and no name is empty. *)
Theorem X3_store_args_returns (cf : Folding) (files : string -> result string)
    (iter : pyset -> list string) (args : Namespace) :
  (exists stored, store_args files cf iter args = Ok stored) <->
  exists usernames,
    _compile_lists files args [] = Ok usernames /\
    usernames <> [] /\
    message_source_given args = true /\
    Forall (fun u => u <> "") usernames.
Proof.
  unfold store_args. split.
  - intros [stored H].
    destruct (_compile_lists files args []) as [[|u us]|e]; [done| |done].
    destruct (message_source_given args); [|done]. simpl in H.
    exists (u :: us). repeat split; [done|].
    unfold _normalize_usernames in H.
    destruct (normalize_loop (u :: us) []) eqn:E; [|done].
    by eapply normalize_loop_inv.
  - intros (usernames & -> & Hne & -> & Hall).
    destruct usernames as [|u us]; [done|]. simpl.
    rewrite normalize_usernames_nonempty by done. eauto.
Qed.

(** X4.  How [store_args] fails, in the order of its checks.  An exception
    from reading the user-list file comes first, whatever else is wrong.
    Else, with no name compiled, it is the usage error about users, also
    when no message source is given.  Else, with no message source, it is
    the usage error about the source, also when a name is empty.  Else an
    empty name gives [IndexError]. *)
Theorem X4_store_args_raises (cf : Folding) (files : string -> result string)
    (iter : pyset -> list string) (args : Namespace) :
  (forall path e,
     arg_user_list args = Some path -> str_truthy path = true ->
     files path = Raise e ->
     store_args files cf iter args = Raise e) /\
  (_compile_lists files args [] = Ok [] ->
     store_args files cf iter args =
       Raise (UsageError "At least one user or file of users is required.")) /\
  (forall u us,
     _compile_lists files args [] = Ok (u :: us) ->
     message_source_given args = false ->
     store_args files cf iter args =
       Raise (UsageError "Either URL and deadline or message file is required.")) /\
  (forall u us,
     _compile_lists files args [] = Ok (u :: us) ->
     message_source_given args = true ->
     "" ∈ u :: us ->
     store_args files cf iter args = Raise IndexError).
Proof.
  unfold store_args. split; [|split; [|split]].
  - intros path e Hp Ht Hf. unfold _compile_lists, _add_users_from_file.
    by rewrite Hp, Ht, Hf.
  - by intros ->.
  - intros u us -> Hm. by rewrite Hm.
  - intros u us -> Hm Hin. rewrite Hm. simpl.
    unfold _normalize_usernames. by rewrite normalize_loop_empty_name.
Qed.

(** X5.  [OriginatingUser]: on a failed profile call the response is
    printed and [RuntimeError] raised.  When it returns, it has made the one
    call, the handle is the display name with '@' in front, and the first
    name is the profile's first name, or the handle when that is empty: it
    is never empty. *)
Theorem X5_originating_user (response : Response) :
  (ok response = false ->
     OriginatingUser_init response =
       ([ApiCall users_profile_get; PrintResponse response], Raised RuntimeError)) /\
  (forall from_user t,
     OriginatingUser_init response = (t, Returned from_user) ->
     t = [ApiCall users_profile_get] /\
     has_sigil (username from_user) = true /\
     str_truthy (firstname from_user) = true /\
     exists p display first,
       ok response = true /\ profile response = Some p /\
       display_name_normalized p = Some display /\ first_name p = Some first /\
       username from_user = "@" +:+ display /\
       firstname from_user = (if str_truthy first then first else "@" +:+ display)).
Proof.
  unfold OriginatingUser_init. rewrite bind_emit. split.
  - by intros ->.
  - intros from_user t. destruct (ok response); simpl; [|done].
    destruct (profile response) as [p|]; [|done].
    destruct (display_name_normalized p) as [display|] eqn:Hd; [|done].
    destruct (first_name p) as [first|] eqn:Hf; [|done].
    simpl. intros [= <- <-]. simpl. repeat split.
    + by destruct first.
    + exists p, display, first. by rewrite Hd, Hf.
Qed.

(** A directory entry without an id. *)
Lemma match_members_missing_id (page : list Member) (user_ids : list User)
    (users : list string) :
  Exists (fun member => member_id member = None) page ->
  match_members page user_ids users = Raise (KeyError "id").
Proof.
  intros H. revert user_ids users.
  induction H as [member page Hid|member page _ IH]; intros user_ids users; simpl.
  - unfold match_member. by rewrite Hid.
  - pose proof (match_member_cases member user_ids users) as Hc.
    destruct (match_member member user_ids users) as [[ids' users']|e]; [apply IH|].
    by destruct Hc as [_ ->].
Qed.

Lemma match_members_with_ids (page : list Member) (user_ids : list User)
    (users : list string) :
  Forall (fun member => member_id member <> None) page ->
  exists user_ids' users', match_members page user_ids users = Ok (user_ids', users').
Proof.
  intros H. revert user_ids users.
  induction H as [|member page Hid _ IH]; intros user_ids users; simpl; [eauto|].
  pose proof (match_member_cases member user_ids users) as Hc.
  destruct (match_member member user_ids users) as [[ids' users']|e]; [apply IH|].
  by destruct Hc as [? _].
Qed.

(** X6.  A directory entry without an id stops the lookup with [KeyError],
    whether or not the entry matches a name, and whatever was matched on the
    page before it. *)
Theorem X6_missing_id_aborts (answers : list Response) (response : Response)
    (page : list Member) (user_ids : list User) (users : list string) (next : string) :
  ok response = true -> members response = Some page ->
  Exists (fun member => member_id member = None) page ->
  FetchUserIds_loop (response :: answers) user_ids users next =
    ([ApiCall (users_list 250 next)], Raised (KeyError "id")).
Proof.
  intros Hok Hpage Hid. apply FetchUserIds_loop_page_raises; [done|].
  unfold process_page. rewrite Hpage. by apply match_members_missing_id.
Qed.

(** X6 at a concrete input. *)
Lemma X6_missing_id_aborts_witness :
  FetchUserIds_loop
    [page_response [mkMember (Some "U1") (Some "zed") None; mkMember None None None] None]
    [] ["Alice"] "" =
  ([ApiCall (users_list 250 "")], Raised (KeyError "id")).
Proof.
  apply (X6_missing_id_aborts []
           (page_response [mkMember (Some "U1") (Some "zed") None; mkMember None None None]
              None)
           [mkMember (Some "U1") (Some "zed") None; mkMember None None None]);
    [reflexivity|reflexivity|].
  apply Exists_cons_tl, Exists_cons_hd. reflexivity.
Defined.

Lemma process_page_good (response : Response) (user_ids : list User) (users : list string) :
  good_page response ->
  exists user_ids' users', process_page response user_ids users = Ok (user_ids', users').
Proof.
  intros [_ Hids]. unfold process_page.
  destruct (members response) as [page|]; [|eauto].
  by apply match_members_with_ids, Hids.
Qed.

Lemma FetchUserIds_loop_returns (answers : list Response) (last : Response)
    (user_ids : list User) (users : list string) (next : string) :
  Forall good_page answers -> good_page last ->
  response_metadata last = None ->
  exists ids rest,
    final (FetchUserIds_loop (answers ++ [last]) user_ids users next) = Returned (ids, rest).
Proof.
  intros Hgood Hlast Hmd. revert user_ids users next.
  induction Hgood as [|response answers Hr _ IH]; intros user_ids users next.
  - destruct (process_page_good last user_ids users Hlast) as (ids' & users' & Hp).
    simpl app. rewrite (FetchUserIds_loop_page _ _ _ _ _ _ _ (proj1 Hlast) Hp).
    assert (Hstop : continuation last users' = None)
      by (apply continuation_None; right; by left).
    rewrite Hstop. eauto.
  - destruct (process_page_good response user_ids users Hr) as (ids' & users' & Hp).
    simpl app. rewrite (FetchUserIds_loop_page _ _ _ _ _ _ _ (proj1 Hr) Hp).
    destruct (continuation response users'); simpl; [apply IH|eauto].
Qed.

Lemma FetchUserIds_loop_calls (answers : list Response) (user_ids : list User)
    (users : list string) (next : string) :
  Forall list_call (api_calls (trace (FetchUserIds_loop answers user_ids users next))) /\
  length (api_calls (trace (FetchUserIds_loop answers user_ids users next)))
    <= S (length answers).
Proof.
  revert user_ids users next.
  induction answers as [|response answers IH]; intros user_ids users next.
  - simpl. split; [by repeat constructor|lia].
  - loop_round response user_ids users; simpl;
      [destruct (continuation response _); simpl|..];
      (split; [repeat constructor; apply IH|]);
      try lia;
      match goal with
      | |- context [FetchUserIds_loop _ ?a ?b ?c] =>
          destruct (IH a b c) as [_ Hlen]; lia
      end.
Qed.

(** X7.  A directory of well-formed pages whose last page has no metadata
    is looked up to a result, however often the calls are rate-limited in
    between; the recipients found and the names left over are together the
    names asked for. *)
Theorem X7_lookup_returns (all answers : list Response) (last : Response)
    (users : list string) :
  filter (fun a => rate_limited_failure a = false) all = answers ++ [last] ->
  Forall good_page answers -> good_page last ->
  response_metadata last = None ->
  exists ids rest,
    final (FetchUserIds all users) = Returned (ids, rest) /\
    map user_name ids ++ rest ≡ₚ users.
Proof.
  intros Hall Hgood Hlast Hmd. unfold FetchUserIds.
  rewrite FetchUserIds_loop_skip_rate_limited, Hall.
  destruct (FetchUserIds_loop_returns answers last [] users "" Hgood Hlast Hmd)
    as (ids & rest & Hret).
  exists ids, rest. split; [done|].
  by apply FetchUserIds_loop_partition in Hret.
Qed.

(** X7 at a concrete input. *)
Lemma X7_lookup_returns_witness :
  exists ids rest,
    final (FetchUserIds
             [failed_response "ratelimited";
              page_response [mkMember (Some "U1") (Some "Alice") None] (Some "c1");
              failed_response "ratelimited";
              {| ok := true; error := None; profile := None;
                 members := Some [mkMember (Some "U2") None (Some "carol")];
                 response_metadata := None |}]
             ["Alice"; "bob"; "carol"]) = Returned (ids, rest) /\
    map user_name ids ++ rest ≡ₚ ["Alice"; "bob"; "carol"].
Proof.
  apply (X7_lookup_returns _
           [page_response [mkMember (Some "U1") (Some "Alice") None] (Some "c1")]
           {| ok := true; error := None; profile := None;
              members := Some [mkMember (Some "U2") None (Some "carol")];
              response_metadata := None |}).
  - reflexivity.
  - repeat constructor. by intros page [= <-]; repeat constructor.
  - split; [reflexivity|]. by intros page [= <-]; repeat constructor.
  - reflexivity.
Defined.

(** X8.  The lookup calls nothing but [users.list], 250 entries a page,
    starting from the empty cursor, and makes at most one call more than it
    got answers. *)
Theorem X8_lookup_calls (answers : list Response) (users : list string) :
  Forall list_call (api_calls (trace (FetchUserIds answers users))) /\
  length (api_calls (trace (FetchUserIds answers users))) <= S (length answers) /\
  exists rest, trace (FetchUserIds answers users) = ApiCall (users_list 250 "") :: rest.
Proof.
  unfold FetchUserIds.
  destruct (FetchUserIds_loop_calls answers [] users "") as [Hc Hl].
  split; [done|]. split; [done|]. apply FetchUserIds_loop_first_call.
Qed.

(** Among the first [n] answers either all are successes, or one is the
    first failure. *)
Lemma first_failure (f : nat -> bool) (n : nat) :
  (forall j, j < n -> f j = true) \/
  exists k, k < n /\ (forall j, j < k -> f j = true) /\ f k = false.
Proof.
  induction n as [|n [IH|(k & Hk & Hbefore & Hfail)]].
  - left. lia.
  - destruct (f n) eqn:Hn.
    + left. intros j Hj. destruct (decide (j = n)) as [->|]; [done|]. apply IH. lia.
    + right. exists n. split; [lia|]. split; [done|done].
  - right. exists k. split; [lia|done].
Qed.

(** X9.  Whatever the answers, a live [send] posts to a front part of the
    recipient list, once each and in order.  It returns only when that is
    the whole list, every post having succeeded; otherwise it raises
    [RuntimeError] at the first failed post. *)
Theorem X9_send_posts_a_prefix (post : nat -> Response) (_message : string)
    (from_user : OriginatingUser) (users : list User) :
  exists k,
    k <= length users /\
    api_calls (trace (send post _message from_user users false)) =
      posts_for _message from_user (take k users) /\
    (final (send post _message from_user users false) = Returned tt /\
       k = length users /\ (forall j, j < length users -> ok (post j) = true)
     \/
     final (send post _message from_user users false) = Raised RuntimeError /\
       0 < k /\ ok (post (k - 1)) = false /\ (forall j, j < k - 1 -> ok (post j) = true)).
Proof.
  destruct (first_failure (fun j => ok (post j)) (length users))
    as [Hall|(k & Hk & Hbefore & Hfail)].
  - exists (length users). split; [done|].
    rewrite send_live, (send_loop_live_ok _ _ _ _ 0) by done.
    rewrite firstn_all. split; [apply api_calls_live_events|]. by left.
  - exists (S k). split; [lia|].
    rewrite send_live, (send_loop_live_fail _ _ _ _ 0 k) by done.
    cbn [trace final fst snd]. rewrite api_calls_app, api_calls_live_events.
    split; [by rewrite app_nil_r|]. right.
    replace (S k - 1) with k by lia. repeat split; [lia|done|done].
Qed.

Lemma report_loop_trace (unidentified_users : list string) :
  report_loop unidentified_users =
  (map (fun user => Print ("@" +:+ user)) unidentified_users, Returned tt).
Proof.
  induction unidentified_users as [|u us IH]; [done|].
  simpl. by rewrite bind_emit, IH.
Qed.

(** X10.  A run in which every step returns: its trace is the profile
    call, the lookup, the sends and then the report of the names left over
    (nothing when none is left); the script returns. *)
Theorem X10_main_completes (w : world) (args : Namespace) (usernames un : list string)
    (from_user : OriginatingUser) (ids : list User) (_message : string)
    (t1 t2 t3 : list event) :
  store_args (fs w) (str_casefold w) (set_iter w) args = Ok usernames ->
  OriginatingUser_init (profile_answer w) = (t1, Returned from_user) ->
  FetchUserIds (users_list_answers w) usernames = (t2, Returned (ids, un)) ->
  Message_init (fs w) (arg_message args) (arg_url args) (arg_deadline args) from_user
    = Ok _message ->
  send (post_answer w) _message from_user ids (arg_dry args) = (t3, Returned tt) ->
  main w args = (t1 ++ t2 ++ t3 ++ report_events un, Returned tt).
Proof.
  intros Hs Ho Hf Hm Hsend. unfold main.
  rewrite Hs, bind_lift_ok, Ho. unfold bind at 1. rewrite Hf.
  unfold bind at 1. rewrite Hm, bind_lift_ok, Hsend.
  unfold bind at 1. destruct un as [|n un]; simpl.
  - by rewrite !app_nil_r.
  - rewrite !bind_emit, report_loop_trace. simpl. by rewrite <- ?app_assoc.
Qed.

(** X10 at a concrete input. *)
Lemma X10_main_completes_witness :
  main one_page_world alice_bob_args =
  ([ApiCall users_profile_get] ++
   [ApiCall (users_list 250 "")] ++
   live_events (rendered "Carol" "http://x" "Monday") carol [mkUser "U1" "Alice"] ++
   report_events ["bob"],
   Returned tt).
Proof.
  apply (X10_main_completes one_page_world alice_bob_args ["Alice"; "bob"] ["bob"] carol
           [mkUser "U1" "Alice"] (rendered "Carol" "http://x" "Monday")).
  - reflexivity.
  - reflexivity.
  - reflexivity.
  - unfold Message_init. by rewrite format_default_message.
  - reflexivity.
Defined.

(** X11.  When the profile call fails, the script stops right there: the
    directory is not asked and nobody is notified. *)
Theorem X11_main_profile_failure (w : world) (args : Namespace) (usernames : list string) :
  store_args (fs w) (str_casefold w) (set_iter w) args = Ok usernames ->
  ok (profile_answer w) = false ->
  main w args =
    ([ApiCall users_profile_get; PrintResponse (profile_answer w)], Raised RuntimeError).
Proof.
  intros Hs Hok. unfold main. rewrite Hs, bind_lift_ok.
  unfold OriginatingUser_init. rewrite Hok. simpl. by rewrite !bind_emit.
Qed.

(** X11 at a concrete input. *)
Lemma X11_main_profile_failure_witness :
  main {| fs := no_files; str_casefold := ascii_folding; set_iter := remove_dups;
          profile_answer := failed_response "invalid_auth";
          users_list_answers := []; post_answer := fun _ => carol_profile |}
       alice_bob_args =
  ([ApiCall users_profile_get; PrintResponse (failed_response "invalid_auth")],
   Raised RuntimeError).
Proof.
  apply (X11_main_profile_failure
           {| fs := no_files; str_casefold := ascii_folding; set_iter := remove_dups;
              profile_answer := failed_response "invalid_auth";
              users_list_answers := []; post_answer := fun _ => carol_profile |}
           alice_bob_args ["Alice"; "bob"]); reflexivity.
Defined.

(** X12.  A message file that cannot be read is found out only after the
    profile call and the directory lookup: the script then raises what the
    reading raised, and in no case is anybody notified. *)
Theorem X12_main_unreadable_message (w : world) (args : Namespace) (path : string)
    (e : exn) :
  arg_message args = Some path -> str_truthy path = true -> fs w path = Raise e ->
  Forall (fun ev => is_post ev = false) (trace (main w args)) /\
  (forall usernames from_user t1 t2 ids un,
     store_args (fs w) (str_casefold w) (set_iter w) args = Ok usernames ->
     OriginatingUser_init (profile_answer w) = (t1, Returned from_user) ->
     FetchUserIds (users_list_answers w) usernames = (t2, Returned (ids, un)) ->
     main w args = (t1 ++ t2, Raised e)).
Proof.
  intros Hmsg Htruthy Hfile.
  assert (Hinit : forall from_user,
    Message_init (fs w) (arg_message args) (arg_url args) (arg_deadline args) from_user
    = Raise e).
  { intros from_user. unfold Message_init.
    by rewrite format_default_message, Hmsg, Htruthy, Hfile. }
  split.
  - apply Forall_forall. intros ev Hin. destruct (is_post ev) eqn:Hpost; [|done].
    destruct (main_post_from_send w args ev Hin Hpost)
      as (from_user & m & ids & _ & Hm & _).
    by rewrite Hinit in Hm.
  - intros usernames from_user t1 t2 ids un Hs Ho Hf. unfold main.
    rewrite Hs, bind_lift_ok, Ho. unfold bind at 1. rewrite Hf.
    unfold bind at 1. rewrite Hinit. simpl. by rewrite app_nil_r.
Qed.

(** X12 at a concrete input. *)
Lemma X12_main_unreadable_message_witness :
  Forall (fun ev => is_post ev = false) (trace (main one_page_world message_file_args)) /\
  (forall usernames from_user t1 t2 ids un,
     store_args (fs one_page_world) (str_casefold one_page_world) (set_iter one_page_world) message_file_args
       = Ok usernames ->
     OriginatingUser_init (profile_answer one_page_world) = (t1, Returned from_user) ->
     FetchUserIds (users_list_answers one_page_world) usernames
       = (t2, Returned (ids, un)) ->
     main one_page_world message_file_args = (t1 ++ t2, Raised (OSError "body.txt"))).
Proof.
  apply (X12_main_unreadable_message one_page_world message_file_args "body.txt"
           (OSError "body.txt")); reflexivity.
Defined.
